(** * The CPA module ([cpa/_module.py]): inference, generative, losses

    A shallow embedding of [CPAModule] and the properties of its
    computation graph.

    Conventions of the embedding.
    - Scalars are kept behind the interface [Scalar]: the methods only use
      the arithmetic of tensor entries through [+], [-], [*], [/], [log],
      [sqrt], [gt] and the conversion of Python numbers.  The structural
      results hold for every implementation of the interface; the numerical
      ones are proved for IEEE-754 binary formats ([IEEE], built on the
      [SpecFloat] operations), which is what torch tensors hold.
    - A float tensor is a batch-major matrix with its shape ([tensor]); a
      covariate tensor is a vector of integer levels (the source comments
      give it as [(batch_size,)]), so [.long()] is the identity on it.
    - The sub-modules ([Encoder], [FCLayers], the decoders, [DrugNetwork],
      the classifiers) are defined outside [_module.py]: an instance
      [CPAModule] holds them as its fields, as arbitrary calls.  Each call
      runs in the monad [M], which threads the state a torch module call
      reads and writes (random generator, normalisation statistics, mode)
      and can raise.  The torch losses, [torch.autograd.grad] and
      [torch.distributions.Normal] are the members of class [Torch]; the
      keys of [_CE_CONSTANTS] those of class [CE_CONSTANTS].
    - [loss_ae] is one of the two values its docstring gives it, ["gauss"]
      and ["nb"].
    - Python exceptions are values of [exn]; a raising call is [Raise e].
      [auto_move_data] only moves its arguments to the device of the
      module and is not modelled. *)

From Stdlib Require Import ZArith Bool Lia.
From Stdlib Require Import Floats.SpecFloat.
From stdpp Require Import base gmap strings list.

Set Default Proof Using "Type".
Local Open Scope string_scope.

(** ** Exceptions and results *)

Inductive exn : Type :=
| KeyError (key : string)
| IndexError
| RuntimeError
| ValueError
| TypeError
| UnboundLocalError (name : string).

Inductive result (A : Type) : Type :=
| Ok (a : A)
| Raise (e : exn).
Arguments Ok {A} a.
Arguments Raise {A} e.

Definition rbind {A B} (r : result A) (k : A -> result B) : result B :=
  match r with
  | Ok a => k a
  | Raise e => Raise e
  end.

(** [d[key]] on a Python dict. *)
Definition getitem {V} (d : gmap string V) (key : string) : result V :=
  match d !! key with
  | Some v => Ok v
  | None => Raise (KeyError key)
  end.

(** [d[key]] on a dict built with a fixed set of keys: [None] is an absent
    key. *)
Definition getkey {V} (field : option V) (key : string) : result V :=
  match field with
  | Some v => Ok v
  | None => Raise (KeyError key)
  end.

#[global] Instance result_ret : MRet result := fun A a => Ok a.
#[global] Instance result_bind : MBind result := fun A B k r => rbind r k.

(** ** Scalars *)

Class Scalar (F : Type) : Type := {
  f0 : F;                       (* 0.0 *)
  f1 : F;                       (* 1.0 *)
  fadd : F -> F -> F;
  fsub : F -> F -> F;
  fmul : F -> F -> F;
  fdiv : F -> F -> F;
  flog : F -> F;
  fsqrt : F -> F;
  fgt : F -> F -> bool;         (* torch.gt on one entry *)
  f_of_nat : nat -> F           (* a Python int, or an element count *)
}.

(** ** Tensors *)

Section Tensors.
Context {F : Type} `{Scalar F}.

(** A 2-D float tensor: its shape and its entries.  Entries outside the
    shape are never read. *)
Record tensor : Type := Tensor {
  nrow : nat;
  ncol : nat;
  entry : nat -> nat -> F
}.

Definition same_shape (a b : tensor) : bool :=
  bool_decide (nrow a = nrow b) && bool_decide (ncol a = ncol b).

Definition tmap (f : F -> F) (a : tensor) : tensor :=
  {| nrow := nrow a; ncol := ncol a; entry i j := f (entry a i j) |}.

(** torch broadcasting of one dimension: equal sizes, or one of them 1. *)
Definition bdim (a b : nat) : option nat :=
  if decide (a = b) then Some a
  else if decide (a = 1) then Some b
  else if decide (b = 1) then Some a
  else None.

Definition bidx (d i : nat) : nat := if decide (d = 1) then 0 else i.

(** An elementwise binary operator of torch ([a + b], [a - b], [a.div(b)]):
    broadcasts, and raises when the shapes are incompatible. *)
Definition broadcast2 (op : F -> F -> F) (a b : tensor) : result tensor :=
  match bdim (nrow a) (nrow b), bdim (ncol a) (ncol b) with
  | Some r, Some c =>
      Ok {| nrow := r; ncol := c;
            entry i j := op (entry a (bidx (nrow a) i) (bidx (ncol a) j))
                            (entry b (bidx (nrow b) i) (bidx (ncol b) j)) |}
  | _, _ => Raise RuntimeError
  end.

Definition tadd := broadcast2 fadd.
Definition tsub := broadcast2 fsub.
Definition tdiv := broadcast2 fdiv.

(** [t.log()], [t.sqrt()], [t.pow(2)], [t.div(2)], [t.mul(2)],
    [t.gt(0).float()]. *)
Definition tlog : tensor -> tensor := tmap flog.
Definition tsqrt : tensor -> tensor := tmap fsqrt.
Definition tpow2 : tensor -> tensor := tmap (fun x => fmul x x).
Definition tdiv2 : tensor -> tensor := tmap (fun x => fdiv x (f_of_nat 2)).
Definition tmul2 : tensor -> tensor := tmap (fun x => fmul x (f_of_nat 2)).
Definition tgt0_float : tensor -> tensor :=
  tmap (fun x => if fgt x f0 then f1 else f0).

(** [t.sum()] and [t.mean()]: torch leaves the order of the additions to
    its kernel; they are taken entry after entry, row by row.  The mean
    divides the sum by the number of entries (0/0 on an empty tensor). *)
Definition row_sum (a : tensor) (acc : F) (i : nat) : F :=
  foldl (fun acc j => fadd acc (entry a i j)) acc (seq 0 (ncol a)).

Definition tsum (a : tensor) : F :=
  foldl (row_sum a) f0 (seq 0 (nrow a)).

Definition numel (a : tensor) : nat := nrow a * ncol a.

Definition tmean (a : tensor) : F := fdiv (tsum a) (f_of_nat (numel a)).

(** [torch.nn.Embedding]: row [i] of the weight for level [i]; a level
    outside the table is an [IndexError]. *)
Definition level_in_range (n : nat) (i : Z) : bool :=
  (0 <=? i)%Z && (i <? Z.of_nat n)%Z.

Definition Embedding (weight : tensor) (levels : list Z) : result tensor :=
  if forallb (level_in_range (nrow weight)) levels
  then Ok {| nrow := length levels; ncol := ncol weight;
             entry b j := entry weight (Z.to_nat (nth b levels 0%Z)) j |}
  else Raise IndexError.

(** [torch.cat(ts, 0)] of tensors [t[None]] of shape [(1, B, n)], as the
    list of their [(B, n)] slices: raises on the empty list and when the
    slices differ in shape. *)
Definition cat0 (ts : list tensor) : result (list tensor) :=
  match ts with
  | [] => Raise RuntimeError
  | t :: rest =>
      if forallb (same_shape t) rest then Ok ts else Raise RuntimeError
  end.

(** [stack.sum(0)] of a [(K, B, n)] tensor with [K >= 1]. *)
Definition sum0 (stack : list tensor) : tensor :=
  {| nrow := nrow (hd (Tensor 0 0 (fun _ _ => f0)) stack);
     ncol := ncol (hd (Tensor 0 0 (fun _ _ => f0)) stack);
     entry b j := foldl (fun acc t => fadd acc (entry t b j)) f0 stack |}.

(** [one_hot(levels, num_classes=n)] raises unless every level is a class
    (and, on an empty tensor, unless [n] is positive); the encoding
    itself is not used by the module. *)
Definition one_hot_defined (levels : list Z) (n : nat) : bool :=
  match levels with
  | [] => bool_decide (0 < n)
  | _ => forallb (level_in_range n) levels
  end.

(** [levels.squeeze(-1)]: a vector of length 1 becomes a 0-d tensor. *)
Inductive target : Type :=
| Target0 (level : Z)
| Target1 (levels : list Z).

Definition squeeze_last (levels : list Z) : target :=
  match levels with
  | [l] => Target0 l
  | _ => Target1 levels
  end.
End Tensors.

Arguments tensor F : clear implicits.

(** ** The monad of a module call: state and exceptions *)

Section Monad.
Variable St : Type.

Definition M (A : Type) : Type := St -> result (A * St).

Definition M_bind_def {A B} (k : A -> M B) (m : M A) : M B :=
  fun s =>
    match m s with
    | Ok (a, s') => k a s'
    | Raise e => Raise e
    end.

(** A computation that raises or returns without touching the state. *)
Definition lift {A} (r : result A) : M A :=
  fun s =>
    match r with
    | Ok a => Ok (a, s)
    | Raise e => Raise e
    end.
End Monad.

Arguments lift {St A} r.

#[global] Instance M_ret St : MRet (M St) := fun A a s => Ok (a, s).
#[global] Instance M_bind St : MBind (M St) := fun A B => M_bind_def St.

(** ** What the module takes from torch and from [_utils] *)

(** [graphed] is a classifier output, a tensor that carries its autograd
    graph; [Normal] is [torch.distributions.Normal]. *)
Class Torch (F graphed Normal : Type) : Type := {
  data : graphed -> tensor F;
  (* torch.autograd.grad(y.sum(), x, create_graph=True)[0] *)
  autograd_grad_sum : graphed -> tensor F -> result (tensor F);
  (* db.Normal(loc, scale) *)
  Normal_init : tensor F -> tensor F -> result Normal;
  (* nn.CrossEntropyLoss() and nn.BCEWithLogitsLoss(), called *)
  CrossEntropyLoss : tensor F -> target -> result F;
  BCEWithLogitsLoss : tensor F -> tensor F -> result F
}.

(** The keys [_CE_CONSTANTS.X_KEY] and [_CE_CONSTANTS.PERTURBATIONS]. *)
Class CE_CONSTANTS : Type := {
  X_KEY : string;
  PERTURBATIONS : string
}.

(** ** The module *)

Inductive likelihood : Type := gauss | nb.

#[global] Instance likelihood_eq_dec : EqDecision likelihood.
Proof. solve_decision. Defined.

Section Module.
Context {F : Type} (St graphed NegativeBinomial : Type).

(** [self.encoder]: an scvi [Encoder] (mean, variance and sample) when
    [variational], else an [FCLayers]. *)
Definition encoder_module (variational : bool) : Type :=
  if variational
  then tensor F -> M St (tensor F * tensor F * tensor F)
  else tensor F -> M St (tensor F).

(** [self.l_encoder]: only set under ["nb"]. *)
Definition l_encoder_module (loss_ae : likelihood) : Type :=
  match loss_ae with
  | nb => tensor F -> M St (tensor F)
  | gauss => unit
  end.

(** [self.decoder]: a [DecoderGauss] under ["gauss"], else a [DecoderNB]
    (called with [px_r]). *)
Definition decoder_module (loss_ae : likelihood) : Type :=
  match loss_ae with
  | gauss => tensor F -> M St (tensor F * tensor F)
  | nb => tensor F -> list F -> M St NegativeBinomial
  end.

(** The attributes [__init__] sets.  The two [ModuleDict]s are built
    from [covars_to_ncovars] and are read at its keys only. *)
Record CPAModule : Type := {
  n_genes : nat;
  n_drugs : nat;
  n_latent : nat;
  loss_ae : likelihood;
  doser_type : string;
  ae_width : nat;
  ae_depth : nat;
  dosers_width : nat;
  dosers_depth : nat;
  adversary_width : nat;
  adversary_depth : nat;
  use_batch_norm : bool;
  use_layer_norm : bool;
  variational : bool;
  covars_to_ncovars : list (string * nat);
  encoder : encoder_module variational;
  l_encoder : l_encoder_module loss_ae;
  px_r : list F;
  decoder : decoder_module loss_ae;
  drug_network : tensor F -> M St (tensor F);
  drugs_classifier : tensor F -> M St graphed;
  covars_embedding : string -> tensor F;
  covars_classifiers : string -> tensor F -> M St graphed
}.
End Module.

Arguments CPAModule F St graphed NegativeBinomial : clear implicits.
Arguments n_genes {F St graphed NegativeBinomial} _.
Arguments n_drugs {F St graphed NegativeBinomial} _.
Arguments n_latent {F St graphed NegativeBinomial} _.
Arguments loss_ae {F St graphed NegativeBinomial} _.
Arguments variational {F St graphed NegativeBinomial} _.
Arguments covars_to_ncovars {F St graphed NegativeBinomial} _.
Arguments encoder {F St graphed NegativeBinomial} _.
Arguments l_encoder {F St graphed NegativeBinomial} _.
Arguments px_r {F St graphed NegativeBinomial} _.
Arguments decoder {F St graphed NegativeBinomial} _.
Arguments drug_network {F St graphed NegativeBinomial} _.
Arguments drugs_classifier {F St graphed NegativeBinomial} _.
Arguments covars_embedding {F St graphed NegativeBinomial} _.
Arguments covars_classifiers {F St graphed NegativeBinomial} _.

Section CPA.
Context {F : Type} `{Scalar F}.
Context {St graphed Normal NegativeBinomial : Type}.
Context `{Torch F graphed Normal} `{CE_CONSTANTS}.

(** The batch [tensors], one dict in the source, by the type of its
    entries: the float tensors (expression, doses) and the level vectors
    of the covariates, each by name. *)
Record batch : Type := {
  floats : gmap string (tensor F);
  levels : gmap string (list Z)
}.

Record inference_input : Type := {
  genes : tensor F;
  drugs_doses : tensor F;
  in_covars_dict : gmap string (list Z)
}.

Record inference_outputs : Type := {
  latent : tensor F;
  latent_basal : tensor F;
  dist_qz : option Normal;
  library : option (tensor F);
  covars_dict : gmap string (list Z)
}.

(** The dict [_get_generative_input] returns: the key ["library"] is only
    set under ["nb"] (its value may be Python's [None]). *)
Record generative_input : Type := {
  gi_library : option (option (tensor F));
  gi_latent : tensor F;
  gi_latent_basal : tensor F
}.

(** The dict [generative] returns; [None] is a key the dict does not
    have. *)
Record generative_outputs : Type := {
  means : option (tensor F);
  variances : option (tensor F);
  dist_px : option NegativeBinomial;
  drugs_pred : option graphed;
  covars_pred : option (gmap string graphed)
}.

Variable self : CPAModule F St graphed NegativeBinomial.

(** The loop of [_get_inference_input] over [covars_to_ncovars.items()]. *)
Fixpoint collect_covars (vocab : list (string * nat)) (tensors : batch)
    (covars_dict : gmap string (list Z)) : result (gmap string (list Z)) :=
  match vocab with
  | [] => Ok covars_dict
  | (covar, _) :: vocab =>
      encoded_covars ← getitem (levels tensors) covar;
      collect_covars vocab tensors (<[covar := encoded_covars]> covars_dict)
  end.

Definition _get_inference_input (tensors : batch) : result inference_input :=
  x ← getitem (floats tensors) X_KEY;
  drugs_doses ← getitem (floats tensors) PERTURBATIONS;
  covars_dict ← collect_covars (covars_to_ncovars self) tensors ∅;
  Ok {| genes := x; drugs_doses := drugs_doses;
        in_covars_dict := covars_dict |}.

(** The first branch of [inference]: the basal state and, when
    [variational], its distribution. *)
Definition encode (x_ : tensor F) : M St (option Normal * tensor F) :=
  (if variational self as v
      return encoder_module St v -> M St (option Normal * tensor F)
   then fun encoder =>
          '(qz_m, qz_v, latent_basal) ← encoder x_;
          dist_qzbasal ← lift (Normal_init qz_m (tsqrt qz_v));
          mret (Some dist_qzbasal, latent_basal)
   else fun encoder =>
          latent_basal ← encoder x_;
          mret (None, latent_basal))
    (encoder self).

(** The second branch: the library size under ["nb"]. *)
Definition encode_library (x_ : tensor F) : M St (option (tensor F)) :=
  match loss_ae self as l
        return l_encoder_module St l -> M St (option (tensor F)) with
  | nb => fun l_encoder => library ← l_encoder x_; mret (Some library)
  | gauss => fun _ => mret None
  end (l_encoder self).

(** The loop of [inference] that fills [latent_covariates]. *)
Fixpoint embed_covars (vocab : list (string * nat))
    (covars_dict : gmap string (list Z)) : result (list (tensor F)) :=
  match vocab with
  | [] => Ok []
  | (covar, _) :: vocab =>
      idx ← getitem covars_dict covar;
      latent_covar_i ← Embedding (covars_embedding self covar) idx;
      rest ← embed_covars vocab covars_dict;
      Ok (latent_covar_i :: rest)
  end.

Definition inference (genes drugs_doses : tensor F)
    (covars_dict : gmap string (list Z)) : M St inference_outputs :=
  let x_ := genes in
  '(dist_qzbasal, latent_basal) ← encode x_;
  library ← encode_library x_;
  latent_covariates ← lift (embed_covars (covars_to_ncovars self) covars_dict);
  stacked ← lift (cat0 latent_covariates);
  let latent_covariates := sum0 stacked in
  latent_treatment ← drug_network self drugs_doses;
  partial ← lift (tadd latent_basal latent_covariates);
  latent ← lift (tadd partial latent_treatment);
  mret {| latent := latent;
          latent_basal := latent_basal;
          dist_qz := dist_qzbasal;
          library := library;
          covars_dict := covars_dict |}.

(** The loop of [_get_generative_input]; the one-hot encodings it
    computes are dropped, their exceptions are not. *)
Fixpoint encode_covars (vocab : list (string * nat)) (tensors : batch)
    : result unit :=
  match vocab with
  | [] => Ok ()
  | (covar, n_covars) :: vocab =>
      val ← getitem (levels tensors) covar;
      if one_hot_defined val n_covars
      then encode_covars vocab tensors
      else Raise RuntimeError
  end.

Definition _get_generative_input (tensors : batch)
    (inference_outputs : inference_outputs) : result generative_input :=
  let latent := latent inference_outputs in
  let latent_basal := latent_basal inference_outputs in
  let input_library :=
    if decide (loss_ae self = nb)
    then Some (library inference_outputs) else None in
  _ ← encode_covars (covars_to_ncovars self) tensors;
  Ok {| gi_library := input_library;
        gi_latent := latent;
        gi_latent_basal := latent_basal |}.

(** The loop of [generative] over [covars_to_ncovars.keys()]. *)
Fixpoint classify_covars (vocab : list (string * nat))
    (latent_basal : tensor F) (covars_pred : gmap string graphed)
    : M St (gmap string graphed) :=
  match vocab with
  | [] => mret covars_pred
  | (covar, _) :: vocab =>
      covar_pred ← covars_classifiers self covar latent_basal;
      classify_covars vocab latent_basal (<[covar := covar_pred]> covars_pred)
  end.

(** The last branch of [generative]: the decoder's entries of the dict. *)
Definition decode (latent : tensor F) (drugs_pred : graphed)
    (covars_pred : gmap string graphed) : M St generative_outputs :=
  match loss_ae self as l
        return decoder_module St NegativeBinomial l -> M St generative_outputs
  with
  | nb => fun decoder =>
      dist_px ← decoder latent (px_r self);
      mret {| means := None; variances := None;
              dist_px := Some dist_px;
              drugs_pred := Some drugs_pred;
              covars_pred := Some covars_pred |}
  | gauss => fun decoder =>
      '(means, variances) ← decoder latent;
      mret {| means := Some means; variances := Some variances;
              dist_px := None;
              drugs_pred := Some drugs_pred;
              covars_pred := Some covars_pred |}
  end (decoder self).

Definition generative (latent latent_basal : tensor F)
    : M St generative_outputs :=
  drugs_pred ← drugs_classifier self latent_basal;
  covars_pred ← classify_covars (covars_to_ncovars self) latent_basal ∅;
  decode latent drugs_pred covars_pred.

(** [BaseModuleClass.forward(tensors, compute_loss=False)] of scvi, with
    no extra keyword arguments: the two input preparations around
    [inference] and [generative].  The prepared dict is passed to
    [generative] as keyword arguments: a ["library"] entry is an
    argument [generative] does not have. *)
Definition forward (tensors : batch)
    : M St (inference_outputs * generative_outputs) :=
  inference_inputs ← lift (_get_inference_input tensors);
  inference_outputs ←
    inference (genes inference_inputs) (drugs_doses inference_inputs)
              (in_covars_dict inference_inputs);
  generative_inputs ← lift (_get_generative_input tensors inference_outputs);
  generative_outputs ←
    match gi_library generative_inputs with
    | Some _ => lift (Raise TypeError)
    | None => generative (gi_latent generative_inputs)
                         (gi_latent_basal generative_inputs)
    end;
  mret (inference_outputs, generative_outputs).

(** The two loops of [adversarial_loss]; each accumulator starts as the
    Python float [0.0]. *)
Fixpoint adv_covars_loop (vocab : list (string * nat))
    (covars_pred : gmap string graphed) (covars_dict : gmap string (list Z))
    (adv_covars_loss : F) : result F :=
  match vocab with
  | [] => Ok adv_covars_loss
  | (covar, _) :: vocab =>
      pred ← getitem covars_pred covar;
      idx ← getitem covars_dict covar;
      l ← CrossEntropyLoss (data pred) (squeeze_last idx);
      adv_covars_loop vocab covars_pred covars_dict (fadd adv_covars_loss l)
  end.

(** [torch.autograd.grad(pred.sum(), latent_basal, ...)[0].pow(2).mean()] *)
Definition grad_penalty (pred : graphed) (latent_basal : tensor F)
    : result F :=
  g ← autograd_grad_sum pred latent_basal;
  Ok (tmean (tpow2 g)).

Fixpoint adv_penalty_loop (vocab : list (string * nat))
    (covars_pred : gmap string graphed) (latent_basal : tensor F)
    (adv_penalty_covariates : F) : result F :=
  match vocab with
  | [] => Ok adv_penalty_covariates
  | (covar, _) :: vocab =>
      pred ← getitem covars_pred covar;
      covar_penalty ← grad_penalty pred latent_basal;
      adv_penalty_loop vocab covars_pred latent_basal
                       (fadd adv_penalty_covariates covar_penalty)
  end.

Definition adversarial_loss (tensors : batch)
    (inference_outputs : inference_outputs)
    (generative_outputs : generative_outputs) : result (F * F) :=
  drugs_doses ← getitem (floats tensors) PERTURBATIONS;
  let latent_basal := latent_basal inference_outputs in
  let covars_dict := covars_dict inference_outputs in
  drugs_pred ← getkey (drugs_pred generative_outputs) "drugs_pred";
  covars_pred ← getkey (covars_pred generative_outputs) "covars_pred";
  adv_covars_loss ←
    adv_covars_loop (covars_to_ncovars self) covars_pred covars_dict f0;
  adv_drugs_loss ←
    BCEWithLogitsLoss (data drugs_pred) (tgt0_float drugs_doses);
  let adv_loss := fadd adv_drugs_loss adv_covars_loss in
  adv_penalty_covariates ←
    adv_penalty_loop (covars_to_ncovars self) covars_pred latent_basal f0;
  adv_penalty_treatments ← grad_penalty drugs_pred latent_basal;
  let adv_penalty := fadd adv_penalty_covariates adv_penalty_treatments in
  Ok (adv_loss, adv_penalty).

(** [reconstruction_loss] is only bound on the ["gauss"] branch. *)
Definition loss (tensors : batch) (inference_outputs : inference_outputs)
    (generative_outputs : generative_outputs) : result F :=
  x ← getitem (floats tensors) X_KEY;
  means ← getkey (means generative_outputs) "means";
  variances ← getkey (variances generative_outputs) "variances";
  reconstruction_loss ←
    (if decide (loss_ae self = gauss)
     then let term1 := tdiv2 (tlog variances) in
          d ← tsub x means;
          term2 ← tdiv (tpow2 d) (tmul2 variances);
          s ← tadd term1 term2;
          Ok (Some (tmean s))
     else Ok None);
  match reconstruction_loss with
  | Some loss => Ok loss
  | None => Raise (UnboundLocalError "reconstruction_loss")
  end.

Definition get_expression (tensors : batch)
    : M St (tensor F * tensor F) :=
  '(_, generative_outputs) ← forward tensors;
  if decide (loss_ae self = gauss)
  then mus ← lift (getkey (means generative_outputs) "means");
       stds ← lift (getkey (variances generative_outputs) "variances");
       mret (mus, stds)
  else lift (Raise ValueError).
End CPA.

Arguments batch F : clear implicits.
Arguments inference_input F : clear implicits.
Arguments inference_outputs F Normal : clear implicits.
Arguments generative_input F : clear implicits.
Arguments generative_outputs F graphed NegativeBinomial : clear implicits.

(** ** IEEE-754 scalars *)

Section IEEE.
(** [prec] bits of mantissa, infinities at exponent [emax]: 24 and 128
    for [torch.float32], 53 and 1024 for [torch.float64]. *)
Variables prec emax : Z.
(** The [log] kernel of torch, which the IEEE standard does not fix. *)
Variable log_kernel : spec_float -> spec_float.

Definition IEEE_of_nat (n : nat) : spec_float :=
  binary_normalize prec emax (Z.of_nat n) 0 false.

Definition IEEE : Scalar spec_float :=
  {| f0 := S754_zero false;
     f1 := IEEE_of_nat 1;
     fadd := SFadd prec emax;
     fsub := SFsub prec emax;
     fmul := SFmul prec emax;
     fdiv := SFdiv prec emax;
     flog := log_kernel;
     fsqrt := SFsqrt prec emax;
     fgt x y := SFltb y x;
     f_of_nat := IEEE_of_nat |}.
End IEEE.

(** [torch.isfinite], [torch.isnan], [x >= 0] and [x > 0] on one entry. *)
Definition is_finite (x : spec_float) : bool :=
  match x with
  | S754_zero _ | S754_finite _ _ _ => true
  | S754_infinity _ | S754_nan => false
  end.

Definition is_nan (x : spec_float) : bool :=
  match x with
  | S754_nan => true
  | _ => false
  end.

(** A NaN, or a value whose sign bit is clear. *)
Definition sign_clear (x : spec_float) : bool :=
  match x with
  | S754_zero s | S754_infinity s | S754_finite s _ _ => negb s
  | S754_nan => true
  end.

(** A value that is not a NaN and whose sign bit is clear. *)
Definition nonneg (x : spec_float) : bool :=
  match x with
  | S754_zero s | S754_infinity s | S754_finite s _ _ => negb s
  | S754_nan => false
  end.

Definition ge0 (x : spec_float) : bool := SFleb (S754_zero false) x.
Definition gt0 (x : spec_float) : bool := SFltb (S754_zero false) x.

(** A tensor without a NaN, and one whose element count converts to a
    positive finite scalar (it is not empty, and not so large that the
    count overflows). *)
Definition no_nan (g : tensor spec_float) : Prop :=
  forall i j, i < nrow g -> j < ncol g -> is_nan (entry g i j) = false.

Definition counted (prec emax : Z) (g : tensor spec_float) : Prop :=
  is_finite (IEEE_of_nat prec emax (numel g)) = true /\
  gt0 (IEEE_of_nat prec emax (numel g)) = true.

(** ** A small instance, used to run the methods

    One cell, two genes, one drug, two latent dimensions, in
    [torch.float32].  The state counts the module calls. *)

Module Example.
(** [torch.float32]; the [log] kernel of the instance is right at 1.0, the
    only variance its decoder returns. *)
Definition binary32 : Scalar spec_float :=
  IEEE 24 128 (fun _ => S754_zero false).
#[export] Existing Instance binary32.

Definition St : Type := nat.
(** A classifier output with the gradient of its sum. *)
Definition graphed : Type := tensor spec_float * tensor spec_float.
Definition Normal : Type := tensor spec_float * tensor spec_float.
Definition NegativeBinomial : Type := tensor spec_float * list spec_float.

(** Stand-ins for torch: the gradient is read off the classifier output,
    the two classification losses are constant. *)
#[export] Instance torch : Torch spec_float graphed Normal :=
  {| data := fst;
     autograd_grad_sum y x := Ok (snd y);
     Normal_init loc scale := Ok (loc, scale);
     CrossEntropyLoss input target := Ok (IEEE_of_nat 24 128 1);
     BCEWithLogitsLoss input target := Ok (IEEE_of_nat 24 128 1) |}.

#[export] Instance constants : CE_CONSTANTS :=
  {| X_KEY := "X"; PERTURBATIONS := "perturbations" |}.

Definition num (n : nat) : spec_float := IEEE_of_nat 24 128 n.

Definition const (r c : nat) (x : spec_float) : tensor spec_float :=
  {| nrow := r; ncol := c; entry _ _ := x |}.

(** A network that keeps the batch dimension, writes [x] everywhere and
    counts the call. *)
Definition net (n_out : nat) (x : spec_float)
    : tensor spec_float -> M St (tensor spec_float) :=
  fun t s => Ok (const (nrow t) n_out x, S s).

Definition classifier (n_out : nat) : tensor spec_float -> M St graphed :=
  fun t s => Ok ((const (nrow t) n_out (num 0),
                  const (nrow t) (ncol t) (num 3)), S s).

Definition module (loss_ae : likelihood) (variational : bool)
    (covars_to_ncovars : list (string * nat))
    : CPAModule spec_float St graphed NegativeBinomial :=
  {| n_genes := 2;
     n_drugs := 1;
     n_latent := 2;
     loss_ae := loss_ae;
     doser_type := "linear";
     ae_width := 256;
     ae_depth := 2;
     dosers_width := 64;
     dosers_depth := 2;
     adversary_width := 128;
     adversary_depth := 3;
     use_batch_norm := true;
     use_layer_norm := false;
     variational := variational;
     covars_to_ncovars := covars_to_ncovars;
     encoder :=
       match variational return encoder_module St variational with
       | true => fun t s =>
           Ok ((const (nrow t) 2 (num 0), const (nrow t) 2 (num 1),
                const (nrow t) 2 (num 5)), S s)
       | false => net 2 (num 5)
       end;
     l_encoder :=
       match loss_ae return l_encoder_module St loss_ae with
       | nb => net 1 (num 7)
       | gauss => ()
       end;
     px_r := [num 1; num 1];
     decoder :=
       match loss_ae
             return decoder_module St NegativeBinomial loss_ae with
       | gauss => fun t s =>
           Ok ((const (nrow t) 2 (num 4), const (nrow t) 2 (num 1)), S s)
       | nb => fun t r s => Ok ((t, r), S s)
       end;
     drug_network := net 2 (num 2);
     drugs_classifier := classifier 1;
     covars_embedding := fun _ => const 2 2 (num 1);
     covars_classifiers := fun _ => classifier 2 |}.

Definition vocabulary : list (string * nat) := [("cell_type", 2)].

Definition tensors : batch spec_float :=
  {| floats := {[ "X" := const 1 2 (num 4);
                  "perturbations" := const 1 1 (num 1) ]};
     levels := {[ "cell_type" := [1%Z] ]} |}.

(** The same batch with a covariate the vocabulary does not have. *)
Definition tensors_extra : batch spec_float :=
  {| floats := floats tensors;
     levels := <["donor" := [0%Z]]> (levels tensors) |}.

(** The same batch without its covariate. *)
Definition tensors_missing : batch spec_float :=
  {| floats := floats tensors; levels := ∅ |}.

(** One entry of expression 4 and mean 0 whose variance is the smallest
    positive normal [float32], [2^-126]. *)
Definition tiny : spec_float := S754_finite false 8388608 (-149).

Definition tensors_one : batch spec_float :=
  {| floats := {[ "X" := const 1 1 (num 4) ]}; levels := ∅ |}.

Definition outputs_tiny_variance
    : generative_outputs spec_float graphed NegativeBinomial :=
  {| means := Some (const 1 1 (num 0));
     variances := Some (const 1 1 tiny);
     dist_px := None;
     drugs_pred := None;
     covars_pred := None |}.

(** Inference outputs for a call of [loss], which does not read them. *)
Definition inference_outputs_one : inference_outputs spec_float Normal :=
  {| latent := const 1 1 (num 0);
     latent_basal := const 1 1 (num 0);
     dist_qz := None;
     library := None;
     covars_dict := ∅ |}.

(** The outputs of the forward pass on [tensors]. *)
Definition forward_run
    : result (inference_outputs spec_float Normal *
              generative_outputs spec_float graphed NegativeBinomial * St) :=
  forward (module gauss false vocabulary) tensors 0.

Definition io : inference_outputs spec_float Normal :=
  match forward_run with
  | Ok ((io, _), _) => io
  | Raise _ => inference_outputs_one
  end.

Definition go : generative_outputs spec_float graphed NegativeBinomial :=
  match forward_run with
  | Ok ((_, go), _) => go
  | Raise _ => outputs_tiny_variance
  end.

(** An empty batch for [adversarial_loss]: no cell, two latent
    dimensions. *)
Definition tensors_empty : batch spec_float :=
  {| floats := {[ "X" := const 0 2 (num 0);
                  "perturbations" := const 0 1 (num 0) ]};
     levels := {[ "cell_type" := [] ]} |}.
End Example.

(** ** The words of the specification *)

Section Specification.
Context {F : Type} `{Scalar F}.
Context {St graphed Normal NegativeBinomial : Type}.
Context `{Torch F graphed Normal} `{CE_CONSTANTS}.
Implicit Types self : CPAModule F St graphed NegativeBinomial.

(** Two tensors of one shape with the same entries. *)
Definition tensor_eq (a b : tensor F) : Prop :=
  nrow a = nrow b /\ ncol a = ncol b /\
  forall i j, i < nrow a -> j < ncol a -> entry a i j = entry b i j.

(** The sum of the entries at [(i, j)] of a list of tensors. *)
Definition sum_at (ts : list (tensor F)) (i j : nat) : F :=
  foldl fadd f0 ((fun t => entry t i j) <$> ts).

(** The sum of a list of scalars, as a Python loop accumulates it. *)
Definition total (xs : list F) : F := foldl fadd f0 xs.

(** The embedding lookups of every covariate of the vocabulary, in its
    order. *)
Definition covariate_embeddings self (covars_dict : gmap string (list Z))
    (embs : list (tensor F)) : Prop :=
  Forall2
    (fun kv e => exists idx,
         covars_dict !! kv.1 = Some idx /\
         Embedding (covars_embedding self kv.1) idx = Ok e)
    (covars_to_ncovars self) embs.

(** The Gaussian negative log-likelihood of one entry. *)
Definition gauss_nll (x mean variance : F) : F :=
  fadd (fdiv (flog variance) (f_of_nat 2))
       (fdiv (fmul (fsub x mean) (fsub x mean)) (fmul variance (f_of_nat 2))).

Definition gauss_nll_tensor (x means variances : tensor F) : tensor F :=
  {| nrow := nrow x; ncol := ncol x;
     entry i j := gauss_nll (entry x i j) (entry means i j)
                            (entry variances i j) |}.

(** The drug-presence target: 1 where the dose is above zero. *)
Definition presence (dose : F) : F := if fgt dose f0 then f1 else f0.

(** The mean over the batch and latent dimensions of a squared
    gradient. *)
Definition mean_square (g : tensor F) : F :=
  tmean {| nrow := nrow g; ncol := ncol g;
           entry i j := fmul (entry g i j) (entry g i j) |}.

(** The cross-entropy of one covariate's logits against its levels. *)
Definition covariate_cross_entropy (cp : gmap string graphed)
    (covars : gmap string (list Z)) (kv : string * nat) (ce : F) : Prop :=
  exists pred idx,
    cp !! kv.1 = Some pred /\ covars !! kv.1 = Some idx /\
    CrossEntropyLoss (data pred) (squeeze_last idx) = Ok ce.

(** The gradient of one covariate classifier's summed logits. *)
Definition covariate_gradient (cp : gmap string graphed)
    (latent_basal : tensor F) (kv : string * nat) (g : tensor F) : Prop :=
  exists pred,
    cp !! kv.1 = Some pred /\ autograd_grad_sum pred latent_basal = Ok g.

(** The shapes [__init__] gives the sub-modules: the encoder, the drug
    network and every embedding table end in [n_latent]; the Gaussian
    decoder ends in [n_genes]; all keep the batch dimension. *)
Record shapes_as_constructed self : Prop := {
  encoder_shape : forall x s d z s',
    encode self x s = Ok ((d, z), s') ->
    nrow z = nrow x /\ ncol z = n_latent self;
  drug_network_shape : forall x s z s',
    drug_network self x s = Ok (z, s') ->
    nrow z = nrow x /\ ncol z = n_latent self;
  embedding_shape : forall covar n,
    (covar, n) ∈ covars_to_ncovars self ->
    nrow (covars_embedding self covar) = n /\
    ncol (covars_embedding self covar) = n_latent self;
  decoder_shape : forall z dp cp s go s' m,
    decode self z dp cp s = Ok (go, s') ->
    means go = Some m \/ variances go = Some m ->
    nrow m = nrow z /\ ncol m = n_genes self
}.

(** Inputs of [inference] for [B] cells: every covariate of the vocabulary
    has its [B] levels, each one below the covariate's cardinality. *)
Definition levels_of self (B : nat) (covars_dict : gmap string (list Z))
    : Prop :=
  forall covar n,
    (covar, n) ∈ covars_to_ncovars self ->
    exists idx,
      covars_dict !! covar = Some idx /\ length idx = B /\
      Forall (fun i => (0 <= i < Z.of_nat n)%Z) idx.

(** A batch of [B] cells for the module: the expression and dose
    matrices, and for each covariate of the vocabulary, which has at
    least one level, the levels of the [B] cells. *)
Record batch_of self (B : nat) (tensors : batch F) : Prop := {
  batch_X : exists x, floats tensors !! X_KEY = Some x /\ nrow x = B;
  batch_doses : exists d,
    floats tensors !! PERTURBATIONS = Some d /\ nrow d = B;
  batch_levels : forall covar n,
    (covar, n) ∈ covars_to_ncovars self ->
    0 < n /\
    exists idx,
      levels tensors !! covar = Some idx /\ length idx = B /\
      Forall (fun i => (0 <= i < Z.of_nat n)%Z) idx
}.
End Specification.

(** ** Further words for the properties of the methods *)

Section MoreSpecification.
Context {F : Type} `{Scalar F}.
Context {St graphed Normal NegativeBinomial : Type}.
Context `{Torch F graphed Normal} `{CE_CONSTANTS}.
Implicit Types self : CPAModule F St graphed NegativeBinomial.

(** Levels that are classes of a covariate with [n] levels. *)
Definition levels_below (n : nat) (idx : list Z) : Prop :=
  Forall (fun i => (0 <= i < Z.of_nat n)%Z) idx.

(** The dict [inference] returns for [covars_dict] in place of the
    [covars_dict] of [out]. *)
Definition with_covars_dict (out : inference_outputs F Normal)
    (covars_dict : gmap string (list Z)) : inference_outputs F Normal :=
  {| latent := latent out;
     latent_basal := latent_basal out;
     dist_qz := dist_qz out;
     library := library out;
     covars_dict := covars_dict |}.
End MoreSpecification.

(** A zero of either sign, and a tensor with a NaN or with a zero at an
    entry of its shape. *)
Definition is_zero (x : spec_float) : bool :=
  match x with
  | S754_zero _ => true
  | _ => false
  end.

Definition has_nan (t : tensor spec_float) : Prop :=
  exists i j, i < nrow t /\ j < ncol t /\ is_nan (entry t i j) = true.

Definition has_zero (t : tensor spec_float) : Prop :=
  exists i j, i < nrow t /\ j < ncol t /\ is_zero (entry t i j) = true.

(** A property of scalars that an addition keeps from either operand
    and a division from its dividend: being a NaN, and not being
    finite. *)
Record absorbing (prec emax : Z) (P : spec_float -> Prop) : Prop := {
  absorbing_add_l : forall a b, P a -> P (SFadd prec emax a b);
  absorbing_add_r : forall a b, P b -> P (SFadd prec emax a b);
  absorbing_div_l : forall a b, P a -> P (SFdiv prec emax a b)
}.

(** ** More runs of the small instance *)

Module Example2.
Import Example.

(** The batch with a level that is no class of its covariate. *)
Definition tensors_out_of_range : batch spec_float :=
  {| floats := floats tensors;
     levels := {[ "cell_type" := [2%Z] ]} |}.

(** Two cells of expression against decoded moments of three cells. *)
Definition tensors_two : batch spec_float :=
  {| floats := {[ "X" := const 2 2 (num 4) ]}; levels := ∅ |}.

Definition outputs_three
    : generative_outputs spec_float graphed NegativeBinomial :=
  {| means := Some (const 3 2 (num 4));
     variances := Some (const 3 2 (num 1));
     dist_px := None;
     drugs_pred := None;
     covars_pred := None |}.

(** Two cells, the second with a variance of zero, a NaN mean. *)
Definition zero_at_1 (x : spec_float) : tensor spec_float :=
  {| nrow := 2; ncol := 2;
     entry i j := if decide (i = 1 /\ j = 0) then S754_zero false else x |}.

Definition nan_at_1 (x : spec_float) : tensor spec_float :=
  {| nrow := 2; ncol := 2;
     entry i j := if decide (i = 1 /\ j = 0) then S754_nan else x |}.

Definition outputs_zero_variance
    : generative_outputs spec_float graphed NegativeBinomial :=
  {| means := Some (const 2 2 (num 4));
     variances := Some (zero_at_1 (num 1));
     dist_px := None;
     drugs_pred := None;
     covars_pred := None |}.

Definition outputs_nan_mean
    : generative_outputs spec_float graphed NegativeBinomial :=
  {| means := Some (nan_at_1 (num 4));
     variances := Some (const 2 2 (num 1));
     dist_px := None;
     drugs_pred := None;
     covars_pred := None |}.

(** No cell at all. *)
Definition tensors_none : batch spec_float :=
  {| floats := {[ "X" := const 0 2 (num 0) ]}; levels := ∅ |}.

Definition outputs_none
    : generative_outputs spec_float graphed NegativeBinomial :=
  {| means := Some (const 0 2 (num 0));
     variances := Some (const 0 2 (num 1));
     dist_px := None;
     drugs_pred := None;
     covars_pred := None |}.

(** The outputs of the forward pass on the batch without cells. *)
Definition forward_run_empty
    : result (inference_outputs spec_float Normal *
              generative_outputs spec_float graphed NegativeBinomial * St) :=
  forward (module gauss false vocabulary) tensors_empty 0.

Definition io_empty : inference_outputs spec_float Normal :=
  match forward_run_empty with
  | Ok ((io, _), _) => io
  | Raise _ => inference_outputs_one
  end.

Definition go_empty
    : generative_outputs spec_float graphed NegativeBinomial :=
  match forward_run_empty with
  | Ok ((_, go), _) => go
  | Raise _ => outputs_none
  end.
End Example2.

(** * Properties *)

(** ** Running the monads *)

Lemma rbind_Ok {A B} (r : result A) (k : A -> result B) (b : B) :
  r ≫= k = Ok b <-> exists a, r = Ok a /\ k a = Ok b.
Proof.
  destruct r as [a|e]; simpl; split.
  - intros Hk. by exists a.
  - by intros (a' & [= <-] & Hk).
  - discriminate.
  - by intros (a' & [=] & _).
Qed.

Lemma M_bind_Ok {St A B} (m : M St A) (k : A -> M St B) s b s' :
  (m ≫= k) s = Ok (b, s') <->
  exists a s1, m s = Ok (a, s1) /\ k a s1 = Ok (b, s').
Proof.
  unfold mbind, M_bind, M_bind_def.
  destruct (m s) as [[a s1]|e]; split.
  - intros Hk. by exists a, s1.
  - by intros (a' & s1' & [= <- <-] & Hk).
  - discriminate.
  - by intros (a' & s1' & [=] & _).
Qed.

Lemma M_bind_Raise {St A B} (m : M St A) (k : A -> M St B) s e :
  m s = Raise e -> (m ≫= k) s = Raise e.
Proof. unfold mbind, M_bind, M_bind_def. by intros ->. Qed.

Lemma M_bind_step {St A B} (m : M St A) (k : A -> M St B) s a s1 :
  m s = Ok (a, s1) -> (m ≫= k) s = k a s1.
Proof. unfold mbind, M_bind, M_bind_def. by intros ->. Qed.

Lemma M_bind_ext {St A B} (m : M St A) (k k' : A -> M St B) s :
  (forall a s1, k a s1 = k' a s1) -> (m ≫= k) s = (m ≫= k') s.
Proof.
  intros Hk. unfold mbind, M_bind, M_bind_def.
  destruct (m s) as [[a s1]|e]; auto.
Qed.

Lemma lift_Ok {St A} (r : result A) (s : St) a s' :
  lift r s = Ok (a, s') <-> r = Ok a /\ s' = s.
Proof.
  destruct r as [a0|e]; simpl; split.
  - by intros [= -> ->].
  - by intros [[= ->] ->].
  - discriminate.
  - by intros [[=] _].
Qed.

Lemma mret_Ok {St A} (a : A) (s : St) b s' :
  mret (M := M St) a s = Ok (b, s') <-> b = a /\ s' = s.
Proof. unfold mret, M_ret. split; [by intros [= -> ->] | by intros [-> ->]]. Qed.

(** Splits a successful run into the runs of its steps. *)
Ltac run_inv :=
  repeat match goal with
  | Hrun : (_ ≫= _) _ = Ok (_, _) |- _ =>
      apply M_bind_Ok in Hrun; destruct Hrun as (? & ? & ? & Hrun)
  | Hrun : _ ≫= _ = Ok _ |- _ =>
      apply rbind_Ok in Hrun; destruct Hrun as (? & ? & Hrun)
  | Hrun : lift _ _ = Ok (_, _) |- _ =>
      apply lift_Ok in Hrun; destruct Hrun as [Hrun ->]
  | Hrun : mret _ _ = Ok (_, _) |- _ =>
      apply mret_Ok in Hrun; destruct Hrun as [Hrun ->]; simplify_eq
  | Hrun : Ok _ = Ok _ |- _ => simplify_eq
  | Hrun : Raise _ = Ok _ |- _ => discriminate Hrun
  | Hrun : (let '(_, _) := ?p in _) _ = Ok _ |- _ => destruct p
  | Hrun : (let '(_, _) := ?p in _) = Ok _ |- _ => destruct p
  end.

(** ** Tensors *)

Section TensorLemmas.
Context {F : Type} `{Scalar F}.
Implicit Types a b c : tensor F.

Lemma bidx_lt d i : i < d -> bidx d i = i.
Proof. unfold bidx. case_decide; lia. Qed.

Lemma same_shape_spec a b :
  same_shape a b <-> nrow a = nrow b /\ ncol a = ncol b.
Proof.
  unfold same_shape. rewrite andb_True, !bool_decide_spec. tauto.
Qed.

(** On tensors of one shape a torch operator works entry by entry. *)
Lemma broadcast2_same_shape op a b c :
  broadcast2 op a b = Ok c ->
  nrow a = nrow b -> ncol a = ncol b ->
  tensor_eq c {| nrow := nrow a; ncol := ncol a;
                 entry i j := op (entry a i j) (entry b i j) |}.
Proof.
  unfold broadcast2, bdim. intros Hc Hr Hk.
  rewrite !decide_True in Hc by done. injection Hc as <-.
  repeat split; simpl. intros i j Hi Hj.
  rewrite <- Hr, <- Hk, !bidx_lt; done.
Qed.

Lemma broadcast2_defined op a b :
  nrow a = nrow b -> ncol a = ncol b -> exists c, broadcast2 op a b = Ok c.
Proof.
  unfold broadcast2, bdim. intros Hr Hk.
  rewrite !decide_True by done. eauto.
Qed.

Lemma foldl_fmap_entry (ts : list (tensor F)) i j acc :
  foldl (fun acc t => fadd acc (entry t i j)) acc ts =
  foldl fadd acc ((fun t => entry t i j) <$> ts).
Proof. revert acc. induction ts as [|t ts IH]; intros acc; simpl; auto. Qed.

Lemma cat0_Ok (ts stack : list (tensor F)) :
  cat0 ts = Ok stack ->
  stack = ts /\ ts <> [] /\
  forall t, t ∈ ts -> same_shape (hd t ts) t.
Proof.
  destruct ts as [|t0 rest]; [done|]. simpl.
  destruct (forallb (same_shape t0) rest) eqn:Hall; [|done].
  intros [= <-]. split; [done|]. split; [done|].
  intros t [->|Hin]%elem_of_cons.
  - apply same_shape_spec. done.
  - apply Is_true_true. rewrite forallb_forall in Hall.
    apply Hall. by apply list_elem_of_In.
Qed.

Lemma Embedding_shape (w : tensor F) idx e :
  Embedding w idx = Ok e -> nrow e = length idx /\ ncol e = ncol w.
Proof.
  unfold Embedding. destruct (forallb _ idx); [|done]. by intros [= <-].
Qed.

Lemma Embedding_entry (w : tensor F) idx e (i j : nat) :
  Embedding w idx = Ok e ->
  entry e i j = entry w (Z.to_nat (nth i idx 0%Z)) j.
Proof.
  unfold Embedding. destruct (forallb _ idx); [|done]. by intros [= <-].
Qed.
End TensorLemmas.

(** ** inference *)

Section Inference.
Context {F : Type} `{Scalar F}.
Context {St graphed Normal NegativeBinomial : Type}.
Context `{Torch F graphed Normal} `{CE_CONSTANTS}.
Implicit Types self : CPAModule F St graphed NegativeBinomial.
Implicit Types out : inference_outputs F Normal.

Lemma embed_covars_spec self vocab covars embs :
  embed_covars self vocab covars = Ok embs ->
  Forall2
    (fun kv e => exists idx,
         covars !! kv.1 = Some idx /\
         Embedding (covars_embedding self kv.1) idx = Ok e)
    vocab embs.
Proof.
  revert embs. induction vocab as [|[covar n] vocab IH]; intros embs; simpl.
  - intros [= <-]. constructor.
  - intros Hrun. run_inv. unfold getitem in *.
    destruct (covars !! covar) as [idx|] eqn:Hidx; [|done].
    match goal with Hg : Ok idx = Ok _ |- _ => injection Hg as <- end.
    constructor; eauto.
Qed.

(** The steps of a call of [inference] that returns. *)
Lemma inference_Ok self genes doses covars s out s' :
  inference self genes doses covars s = Ok (out, s') ->
  exists s1 s2 embs drug partial,
    encode self genes s = Ok ((dist_qz out, latent_basal out), s1) /\
    encode_library self genes s1 = Ok (library out, s2) /\
    embed_covars self (covars_to_ncovars self) covars = Ok embs /\
    cat0 embs = Ok embs /\
    drug_network self doses s2 = Ok (drug, s') /\
    tadd (latent_basal out) (sum0 embs) = Ok partial /\
    tadd partial drug = Ok (latent out) /\
    covars_dict out = covars.
Proof.
  unfold inference. intros Hrun. run_inv. simpl.
  match goal with Hc : cat0 ?e = Ok ?st |- _ =>
    destruct (cat0_Ok _ _ Hc) as (-> & _ & _) end.
  eauto 15.
Qed.

Lemma lift_run {A} (r : result A) (a : A) (s : St) :
  r = Ok a -> lift r s = Ok (a, s).
Proof. by intros ->. Qed.

Lemma embed_covars_returns self vocab covars B k :
  (forall covar n,
      (covar, n) ∈ vocab ->
      nrow (covars_embedding self covar) = n /\
      ncol (covars_embedding self covar) = k /\
      exists idx,
        covars !! covar = Some idx /\ length idx = B /\
        Forall (fun i => (0 <= i < Z.of_nat n)%Z) idx) ->
  exists embs,
    embed_covars self vocab covars = Ok embs /\
    length embs = length vocab /\
    Forall (fun e => nrow e = B /\ ncol e = k) embs.
Proof.
  induction vocab as [|[covar n] vocab IH]; intros Hvocab; simpl.
  - exists []. by repeat split.
  - destruct (Hvocab covar n) as (Hn & Hk & idx & Hidx & Hlen & Hrange);
      [apply elem_of_cons; by left|].
    destruct IH as (embs & -> & Hlen' & Hshapes).
    { intros c m Hin. apply Hvocab, elem_of_cons. by right. }
    unfold getitem. rewrite Hidx. simpl. unfold Embedding.
    assert (forallb (level_in_range (nrow (covars_embedding self covar))) idx
            = true) as ->.
    { apply forallb_forall. intros i Hi%list_elem_of_In.
      rewrite Forall_forall in Hrange. specialize (Hrange i Hi).
      unfold level_in_range. rewrite Hn.
      apply andb_true_intro. split; [apply Z.leb_le|apply Z.ltb_lt]; lia. }
    simpl. eexists. split; [done|]. simpl. split; [by rewrite Hlen'|].
    constructor; [by split|done].
Qed.

Lemma cat0_returns (embs : list (tensor F)) B k :
  embs <> [] -> Forall (fun e => nrow e = B /\ ncol e = k) embs ->
  cat0 embs = Ok embs /\ nrow (sum0 embs) = B /\ ncol (sum0 embs) = k.
Proof.
  destruct embs as [|e0 rest]; [done|]. intros _ Hshapes.
  inversion Hshapes as [|? ? [Hr Hk] Hrest]; subst. simpl.
  assert (forallb (same_shape e0) rest = true) as ->; [|done].
  apply forallb_forall. intros e He%list_elem_of_In.
  rewrite Forall_forall in Hrest. destruct (Hrest e He) as [Hr' Hk'].
  apply Is_true_true, same_shape_spec. split; congruence.
Qed.

(** [inference] returns on a batch of the module: a vocabulary with a
    covariate, every covariate with as many levels as there are cells,
    each level in its table, one dose row per cell, and sub-modules of
    the shapes [__init__] gives them that return. *)
Lemma inference_returns self genes doses covars s d lb s1 lib s2 drug s3 :
  shapes_as_constructed self ->
  covars_to_ncovars self <> [] ->
  levels_of self (nrow genes) covars ->
  nrow doses = nrow genes ->
  encode self genes s = Ok ((d, lb), s1) ->
  encode_library self genes s1 = Ok (lib, s2) ->
  drug_network self doses s2 = Ok (drug, s3) ->
  exists out,
    inference self genes doses covars s = Ok (out, s3) /\
    latent_basal out = lb /\ dist_qz out = d /\ library out = lib.
Proof.
  intros Hshape Hne Hlevels Hdoses Henc Hlib Hdrug.
  destruct (encoder_shape _ Hshape _ _ _ _ _ Henc) as [Br Bk].
  destruct (drug_network_shape _ Hshape _ _ _ _ Hdrug) as [Dr Dk].
  destruct (embed_covars_returns self (covars_to_ncovars self) covars
              (nrow genes) (n_latent self)) as (embs & Hembs & Hlen & Hsh).
  { intros covar n Hin.
    destruct (embedding_shape _ Hshape _ _ Hin) as [? ?].
    destruct (Hlevels _ _ Hin) as (idx & ? & ? & ?). eauto 10. }
  destruct (cat0_returns embs (nrow genes) (n_latent self))
    as (Hcat & Cr & Ck); [|done|].
  { intros ->. destruct (covars_to_ncovars self); done. }
  destruct (broadcast2_defined fadd lb (sum0 embs)) as [partial Hp];
    [congruence..|].
  destruct (broadcast2_same_shape _ _ _ _ Hp) as (Pr & Pk & _);
    [congruence..|]. simpl in Pr, Pk.
  destruct (broadcast2_defined fadd partial drug) as [lat Hl];
    [congruence..|].
  eexists. unfold inference.
  rewrite (M_bind_step _ _ _ _ _ Henc). simpl.
  rewrite (M_bind_step _ _ _ _ _ Hlib).
  rewrite (M_bind_step _ _ _ _ _ (lift_run _ _ _ Hembs)).
  rewrite (M_bind_step _ _ _ _ _ (lift_run _ _ _ Hcat)).
  rewrite (M_bind_step _ _ _ _ _ Hdrug).
  rewrite (M_bind_step _ _ _ _ _ (lift_run _ _ _ Hp)).
  rewrite (M_bind_step _ _ _ _ _ (lift_run _ _ _ Hl)).
  done.
Qed.

(** The composition of the latent in a call of [inference] that
    returns. *)
Lemma inference_composition self genes doses covars s out s' :
  inference self genes doses covars s = Ok (out, s') ->
  exists embs drug s1 s2,
    encode self genes s = Ok ((dist_qz out, latent_basal out), s1) /\
    covariate_embeddings self covars embs /\
    drug_network self doses s2 = Ok (drug, s') /\
    (exists partial,
        tadd (latent_basal out) (sum0 embs) = Ok partial /\
        tadd partial drug = Ok (latent out)) /\
    (same_shape (latent_basal out) (sum0 embs) ->
     same_shape (latent_basal out) drug ->
     tensor_eq (latent out)
       {| nrow := nrow (latent_basal out);
          ncol := ncol (latent_basal out);
          entry i j := fadd (fadd (entry (latent_basal out) i j)
                                  (sum_at embs i j))
                            (entry drug i j) |}).
Proof.
  intros Hrun.
  destruct (inference_Ok _ _ _ _ _ _ _ Hrun)
    as (s1 & s2 & embs & drug & partial & Henc & _ & Hemb & _ & Hdrug
        & Hp & Hl & _).
  exists embs, drug, s1, s2. split; [done|].
  split; [by apply embed_covars_spec|]. split; [done|].
  split; [by exists partial|].
  intros [Hr1 Hk1]%same_shape_spec [Hr2 Hk2]%same_shape_spec.
  destruct (broadcast2_same_shape _ _ _ _ Hp Hr1 Hk1) as (Pr & Pk & Pe).
  simpl in Pr, Pk, Pe.
  destruct (broadcast2_same_shape _ _ _ _ Hl) as (Lr & Lk & Le);
    [congruence..|]. simpl in Lr, Lk, Le.
  split; [simpl; congruence|]. split; [simpl; congruence|].
  intros i j Hi Hj. simpl.
  rewrite Le, Pe by congruence. unfold sum_at.
  by rewrite <- foldl_fmap_entry.
Qed.

(** C1: on every batch of the module (a vocabulary with a covariate, the
    levels of every covariate, sub-modules that return) [inference]
    returns, and whenever it returns its latent is the torch sum
    [latent_basal + latent_covariates + latent_treatment], where
    [latent_basal] is what the encoder produced on [genes],
    [latent_covariates] sums the embedding lookups of every covariate of
    the vocabulary and [latent_treatment] is what the drug network
    produced on the doses; on operands of one shape this is the sum
    entry by entry. *)
Theorem inference_latent_composition self genes doses covars s :
  (forall d lb s1 lib s2 drug s3,
      shapes_as_constructed self ->
      covars_to_ncovars self <> [] ->
      levels_of self (nrow genes) covars ->
      nrow doses = nrow genes ->
      encode self genes s = Ok ((d, lb), s1) ->
      encode_library self genes s1 = Ok (lib, s2) ->
      drug_network self doses s2 = Ok (drug, s3) ->
      exists out,
        inference self genes doses covars s = Ok (out, s3) /\
        latent_basal out = lb) /\
  (forall out s',
      inference self genes doses covars s = Ok (out, s') ->
      exists embs drug s1 s2,
        encode self genes s = Ok ((dist_qz out, latent_basal out), s1) /\
        covariate_embeddings self covars embs /\
        drug_network self doses s2 = Ok (drug, s') /\
        (exists partial,
            tadd (latent_basal out) (sum0 embs) = Ok partial /\
            tadd partial drug = Ok (latent out)) /\
        (same_shape (latent_basal out) (sum0 embs) ->
         same_shape (latent_basal out) drug ->
         tensor_eq (latent out)
           {| nrow := nrow (latent_basal out);
              ncol := ncol (latent_basal out);
              entry i j := fadd (fadd (entry (latent_basal out) i j)
                                      (sum_at embs i j))
                                (entry drug i j) |})).
Proof.
  split.
  - intros d lb s1 lib s2 drug s3 Hshape Hne Hlevels Hdoses Henc Hlib Hdrug.
    destruct (inference_returns _ _ _ _ _ _ _ _ _ _ _ _
                Hshape Hne Hlevels Hdoses Henc Hlib Hdrug)
      as (out & Hrun & Hlb & _).
    by exists out.
  - intros out s'. apply inference_composition.
Qed.

(** C7 at the empty vocabulary: [torch.cat] receives an empty list, so
    [inference] raises and there is no latent vector; once the encoders
    have returned the exception is the [RuntimeError] of [torch.cat]. *)
Theorem inference_empty_vocabulary_raises self genes doses covars s :
  covars_to_ncovars self = [] ->
  (exists e, inference self genes doses covars s = Raise e) /\
  (forall r s1 lib s2,
      encode self genes s = Ok (r, s1) ->
      encode_library self genes s1 = Ok (lib, s2) ->
      inference self genes doses covars s = Raise RuntimeError).
Proof.
  intros Hvocab.
  assert (forall r s1 lib s2,
             encode self genes s = Ok (r, s1) ->
             encode_library self genes s1 = Ok (lib, s2) ->
             inference self genes doses covars s = Raise RuntimeError)
    as Hcat.
  { intros [d lb] s1 lib s2 Henc Hlib. unfold inference.
    rewrite Hvocab. simpl.
    rewrite (M_bind_step _ _ _ _ _ Henc).
    by rewrite (M_bind_step _ _ _ _ _ Hlib). }
  split; [|exact Hcat].
  destruct (encode self genes s) as [[r s1]|e] eqn:Henc.
  2: { exists e. unfold inference. by apply M_bind_Raise. }
  destruct (encode_library self genes s1) as [[lib s2]|e] eqn:Hlib.
  2: { exists e. unfold inference. rewrite (M_bind_step _ _ _ _ _ Henc).
       destruct r. by apply M_bind_Raise. }
  exists RuntimeError. by eapply Hcat.
Qed.

(** With a covariate in the vocabulary and sub-modules of the shapes
    [__init__] gives them, the latent of a batch of [B] cells is
    [B] by [n_latent]. *)
Lemma inference_latent_shape self genes doses covars s out s' :
  shapes_as_constructed self ->
  inference self genes doses covars s = Ok (out, s') ->
  nrow doses = nrow genes ->
  (forall covar idx, covars !! covar = Some idx ->
                     length idx = nrow genes) ->
  nrow (latent out) = nrow genes /\ ncol (latent out) = n_latent self.
Proof.
  intros Hshape Hrun Hdoses Hlevels.
  destruct (inference_Ok _ _ _ _ _ _ _ Hrun)
    as (s1 & s2 & embs & drug & partial & Henc & _ & Hemb & Hcat & Hdrug
        & Hp & Hl & _).
  destruct (encoder_shape _ Hshape _ _ _ _ _ Henc) as [Br Bk].
  destruct (drug_network_shape _ Hshape _ _ _ _ Hdrug) as [Dr Dk].
  destruct (cat0_Ok _ _ Hcat) as (_ & Hne & _).
  assert (nrow (sum0 embs) = nrow genes /\
          ncol (sum0 embs) = n_latent self) as [Cr Ck].
  { apply embed_covars_spec in Hemb.
    inversion Hemb as [|[covar n] e0 vocab embs' (idx & Hidx & He0) _ Hv He];
      subst; [done|].
    simpl in *. destruct (Embedding_shape _ _ _ He0) as [-> ->].
    split; [by eapply Hlevels|].
    assert ((covar, n) ∈ covars_to_ncovars self) as Hin.
    { rewrite <- Hv. apply elem_of_cons. by left. }
    by destruct (embedding_shape _ Hshape _ _ Hin). }
  destruct (broadcast2_same_shape _ _ _ _ Hp) as (Pr & Pk & _);
    [congruence..|]. simpl in Pr, Pk.
  destruct (broadcast2_same_shape _ _ _ _ Hl) as (Lr & Lk & _);
    [congruence..|]. simpl in Lr, Lk.
  split; congruence.
Qed.

(** C10: in the outputs of [inference], [dist_qz] is [None] exactly when
    the module is not variational, and [library] is [None] exactly when
    the likelihood is not ["nb"]. *)
Theorem inference_nullable_fields self genes doses covars s out s' :
  inference self genes doses covars s = Ok (out, s') ->
  (dist_qz out = None <-> variational self = false) /\
  (library out = None <-> loss_ae self <> nb).
Proof.
  intros Hrun.
  destruct (inference_Ok _ _ _ _ _ _ _ Hrun)
    as (s1 & s2 & _ & _ & _ & Henc & Hlib & _).
  clear Hrun. revert Henc Hlib. unfold encode, encode_library.
  generalize (dist_qz out) (library out). intros d l.
  destruct self as [? ? ? lae ? ? ? ? ? ? ? ? ? v ? enc lenc ? ? ? ? ? ?].
  simpl. intros Henc Hlib. split.
  - destruct v; run_inv; split; congruence.
  - destruct lae; run_inv; split; congruence.
Qed.
End Inference.

(** ** generative *)

Section Generative.
Context {F : Type} `{Scalar F}.
Context {St graphed Normal NegativeBinomial : Type}.
Context `{Torch F graphed Normal} `{CE_CONSTANTS}.
Implicit Types self : CPAModule F St graphed NegativeBinomial.
Implicit Types go : generative_outputs F graphed NegativeBinomial.

(** What the decoder branch puts in the dict. *)
Lemma decode_Ok self z dp cp s go s' :
  decode self z dp cp s = Ok (go, s') ->
  drugs_pred go = Some dp /\ covars_pred go = Some cp /\
  match loss_ae self with
  | gauss => is_Some (means go) /\ is_Some (variances go) /\
             dist_px go = None
  | nb => means go = None /\ variances go = None /\ is_Some (dist_px go)
  end.
Proof.
  unfold decode.
  destruct self as [? ? ? lae ? ? ? ? ? ? ? ? ? v ? enc lenc ? dec ? ? ? ?].
  simpl. destruct lae; intros Hrun; run_inv; simpl; eauto 10.
Qed.

Lemma generative_Ok self z lb s go s' :
  generative self z lb s = Ok (go, s') ->
  exists dp s1 cp s2,
    drugs_classifier self lb s = Ok (dp, s1) /\
    classify_covars self (covars_to_ncovars self) lb ∅ s1 = Ok (cp, s2) /\
    decode self z dp cp s2 = Ok (go, s') /\
    drugs_pred go = Some dp /\ covars_pred go = Some cp.
Proof.
  unfold generative. intros Hrun. run_inv.
  match goal with Hd : decode _ _ _ _ _ = Ok _ |- _ =>
    destruct (decode_Ok _ _ _ _ _ _ _ Hd) as (? & ? & _) end.
  eauto 10.
Qed.

(** C5: two calls of [generative] on the same basal latent, from the
    same module state, return the same drug and covariate predictions
    whatever the composed latents are: both are what the classifiers
    return on the basal latent. *)
Theorem generative_predictions_from_basal self z1 z2 lb s go1 s1 go2 s2 :
  generative self z1 lb s = Ok (go1, s1) ->
  generative self z2 lb s = Ok (go2, s2) ->
  drugs_pred go1 = drugs_pred go2 /\
  covars_pred go1 = covars_pred go2 /\
  exists dp sa cp sb,
    drugs_classifier self lb s = Ok (dp, sa) /\
    classify_covars self (covars_to_ncovars self) lb ∅ sa = Ok (cp, sb) /\
    drugs_pred go1 = Some dp /\ covars_pred go1 = Some cp.
Proof.
  intros (dp & sa & cp & sb & Hd1 & Hc1 & _ & Hdp1 & Hcp1)%generative_Ok
         (dp' & sa' & cp' & sb' & Hd2 & Hc2 & _ & Hdp2 & Hcp2)%generative_Ok.
  rewrite Hd1 in Hd2. injection Hd2 as <- <-.
  rewrite Hc1 in Hc2. injection Hc2 as <- <-.
  rewrite Hdp1, Hdp2, Hcp1, Hcp2. eauto 10.
Qed.
End Generative.

(** ** forward, get_expression and the covariate names *)

Section Forward.
Context {F : Type} `{Scalar F}.
Context {St graphed Normal NegativeBinomial : Type}.
Context `{Torch F graphed Normal} `{CE_CONSTANTS}.
Implicit Types self : CPAModule F St graphed NegativeBinomial.
Implicit Types tensors : batch F.

Lemma collect_covars_missing vocab tensors d covar :
  covar ∈ vocab.*1 -> levels tensors !! covar = None ->
  exists key, collect_covars vocab tensors d = Raise (KeyError key) /\
              levels tensors !! key = None.
Proof.
  revert d. induction vocab as [|[c n] vocab IH]; intros d; simpl.
  - by intros ?%elem_of_nil.
  - intros Hin Hnone. unfold getitem at 1.
    destruct (levels tensors !! c) as [v|] eqn:Hv; simpl.
    + apply IH; [|done]. apply elem_of_cons in Hin as [->|Hin]; [|done].
      congruence.
    + by exists c.
Qed.

Lemma collect_covars_extra vocab tensors d name v :
  name ∉ vocab.*1 ->
  collect_covars vocab
    {| floats := floats tensors;
       levels := <[name := v]> (levels tensors) |} d =
  collect_covars vocab tensors d.
Proof.
  revert d. induction vocab as [|[c n] vocab IH]; intros d; simpl; [done|].
  intros Hnot. apply not_elem_of_cons in Hnot as [Hne Hnot].
  unfold getitem. rewrite lookup_insert_ne by done.
  destruct (levels tensors !! c); simpl; [by apply IH|done].
Qed.

Lemma encode_covars_extra vocab tensors name v :
  name ∉ vocab.*1 ->
  encode_covars vocab
    {| floats := floats tensors;
       levels := <[name := v]> (levels tensors) |} =
  encode_covars vocab tensors.
Proof.
  induction vocab as [|[c n] vocab IH]; simpl; [done|].
  intros Hnot. apply not_elem_of_cons in Hnot as [Hne Hnot].
  unfold getitem. rewrite lookup_insert_ne by done.
  destruct (levels tensors !! c); simpl; [|done].
  destruct (one_hot_defined _ _); [by apply IH|done].
Qed.

Lemma _get_inference_input_missing self tensors covar :
  covar ∈ (covars_to_ncovars self).*1 ->
  levels tensors !! covar = None ->
  exists key,
    _get_inference_input self tensors = Raise (KeyError key) /\
    (floats tensors !! key = None \/ levels tensors !! key = None).
Proof.
  intros Hin Hnone. unfold _get_inference_input, getitem.
  destruct (floats tensors !! X_KEY) as [x|] eqn:HX; simpl.
  2: { exists X_KEY. split; [done|by left]. }
  destruct (floats tensors !! PERTURBATIONS) as [d|] eqn:HP; simpl.
  2: { exists PERTURBATIONS. split; [done|by left]. }
  destruct (collect_covars_missing _ _ ∅ _ Hin Hnone) as (key & -> & Hk).
  exists key. split; [done|by right].
Qed.

(** The steps of a forward pass that returns. *)
Lemma forward_Ok self tensors s io go s' :
  forward self tensors s = Ok ((io, go), s') ->
  exists x doses covars s1,
    floats tensors !! X_KEY = Some x /\
    floats tensors !! PERTURBATIONS = Some doses /\
    collect_covars (covars_to_ncovars self) tensors ∅ = Ok covars /\
    inference self x doses covars s = Ok (io, s1) /\
    loss_ae self <> nb /\
    generative self (latent io) (latent_basal io) s1 = Ok (go, s').
Proof.
  unfold forward, _get_inference_input, _get_generative_input.
  intros Hrun. run_inv. simpl in *.
  unfold getitem in *.
  destruct (floats tensors !! X_KEY) as [x|]; [|done].
  destruct (floats tensors !! PERTURBATIONS) as [doses|]; [|done].
  simplify_eq. simpl in *.
  destruct (decide (loss_ae self = nb)) as [Hnb|Hnb]; simpl in *.
  - run_inv.
  - eauto 12.
Qed.

(** Under ["nb"] no forward pass returns. *)
Lemma forward_nb_raises self tensors s :
  loss_ae self = nb -> exists e, forward self tensors s = Raise e.
Proof.
  intros Hnb.
  destruct (forward self tensors s) as [[[io go] s']|e] eqn:Hrun; [|eauto].
  apply forward_Ok in Hrun as (? & ? & ? & ? & _ & _ & _ & _ & Hne & _).
  done.
Qed.

(** The dict the loop of [_get_inference_input] builds. *)
Lemma collect_covars_result vocab tensors d d' covar :
  collect_covars vocab tensors d = Ok d' ->
  d' !! covar = if decide (covar ∈ vocab.*1)
                then levels tensors !! covar else d !! covar.
Proof.
  revert d. induction vocab as [|[c m] vocab IH]; intros d Hrun;
    simpl in Hrun.
  - injection Hrun as <-. rewrite decide_False; [done|]. apply not_elem_of_nil.
  - apply rbind_Ok in Hrun as (v & Hv & Hrun).
    unfold getitem in Hv.
    destruct (levels tensors !! c) as [v'|] eqn:Hc; [|done]. simplify_eq.
    rewrite (IH _ Hrun).
    destruct (decide (covar ∈ vocab.*1)) as [Hin|Hnot].
    + rewrite decide_True; [done|]. apply elem_of_cons. by right.
    + destruct (decide (c = covar)) as [->|Hne].
      * rewrite lookup_insert_eq, decide_True; [done|].
        apply elem_of_cons. by left.
      * rewrite lookup_insert_ne by done.
        rewrite decide_False; [done|].
        intros [?|?]%elem_of_cons; simpl in *; [congruence|done].
Qed.

Lemma collect_covars_returns vocab tensors d :
  (forall covar n, (covar, n) ∈ vocab ->
                   is_Some (levels tensors !! covar)) ->
  exists d', collect_covars vocab tensors d = Ok d'.
Proof.
  revert d. induction vocab as [|[c m] vocab IH]; intros d Hvocab; simpl.
  - by exists d.
  - destruct (Hvocab c m) as [v Hv]; [apply elem_of_cons; by left|].
    unfold getitem. rewrite Hv. simpl. apply IH.
    intros covar n Hin. eapply Hvocab, elem_of_cons. by right.
Qed.

Lemma encode_covars_returns vocab tensors :
  (forall covar n,
      (covar, n) ∈ vocab ->
      exists idx, levels tensors !! covar = Some idx /\
                  one_hot_defined idx n = true) ->
  encode_covars vocab tensors = Ok ().
Proof.
  induction vocab as [|[c m] vocab IH]; intros Hvocab; simpl; [done|].
  destruct (Hvocab c m) as (idx & Hidx & Hoh); [apply elem_of_cons; by left|].
  unfold getitem. rewrite Hidx. simpl. rewrite Hoh. apply IH.
  intros covar n Hin. eapply Hvocab, elem_of_cons. by right.
Qed.

Lemma one_hot_defined_in_range (idx : list Z) n :
  0 < n -> Forall (fun i => (0 <= i < Z.of_nat n)%Z) idx ->
  one_hot_defined idx n = true.
Proof.
  intros Hn Hidx. destruct idx as [|i idx]; simpl.
  - by apply bool_decide_eq_true.
  - inversion Hidx as [|? ? Hi Hrest]; subst.
    apply andb_true_intro. split.
    + unfold level_in_range. apply andb_true_intro.
      split; [apply Z.leb_le|apply Z.ltb_lt]; lia.
    + apply forallb_forall. intros j Hj%list_elem_of_In.
      rewrite Forall_forall in Hrest. specialize (Hrest j Hj).
      unfold level_in_range. apply andb_true_intro.
      split; [apply Z.leb_le|apply Z.ltb_lt]; lia.
Qed.

(** Under ["gauss"], [get_expression] returns what the forward pass it
    wraps has decoded. *)
Lemma get_expression_gauss self tensors s io go s' :
  loss_ae self = gauss ->
  forward self tensors s = Ok ((io, go), s') ->
  exists mus stds,
    get_expression self tensors s = Ok ((mus, stds), s') /\
    means go = Some mus /\ variances go = Some stds /\
    forall B,
      shapes_as_constructed self -> batch_of self B tensors ->
      (nrow mus = B /\ ncol mus = n_genes self) /\
      (nrow stds = B /\ ncol stds = n_genes self).
Proof.
  intros Hgauss Hrun.
  unfold get_expression. rewrite (M_bind_step _ _ _ _ _ Hrun).
  rewrite decide_True by done.
  destruct (forward_Ok _ _ _ _ _ _ Hrun)
    as (x & doses & covars & s1 & HX & HP & Hcov & Hinf & _ & Hgen).
  destruct (generative_Ok _ _ _ _ _ _ Hgen)
    as (dp & sa & cp & sb & _ & _ & Hdec & _ & _).
  destruct (decode_Ok _ _ _ _ _ _ _ Hdec) as (_ & _ & Hkeys).
  rewrite Hgauss in Hkeys.
  destruct Hkeys as ([mus Hmus] & [stds Hstds] & _).
  exists mus, stds. rewrite Hmus, Hstds. split; [done|].
  split; [done|]. split; [done|].
  intros B Hshape [[x' [HX' Hx]] [d' [HP' Hd]] Hlev].
  simplify_eq.
  destruct (inference_latent_shape _ _ _ _ _ _ _ Hshape Hinf)
    as [Lr Lk]; [congruence| |].
  { intros covar idx Hidx.
    rewrite (collect_covars_result _ _ _ _ covar Hcov) in Hidx.
    destruct (decide (covar ∈ (covars_to_ncovars self).*1)) as [Hin|_];
      [|by rewrite lookup_empty in Hidx].
    apply list_elem_of_fmap in Hin as [[c n] [-> Hin]].
    destruct (Hlev _ _ Hin) as (_ & idx' & Hidx' & Hlen & _). simpl in *.
    congruence. }
  destruct (decoder_shape _ Hshape _ _ _ _ _ _ mus Hdec) as [? ?];
    [by left|].
  destruct (decoder_shape _ Hshape _ _ _ _ _ _ stds Hdec) as [? ?];
    [by right|].
  split; split; congruence.
Qed.

(** C6: under ["nb"] [get_expression] raises, on every batch and from
    every module state.  Under ["gauss"], whenever the forward pass it
    wraps returns, [get_expression] returns, leaving the module in the
    state of the forward pass; what it returns is the pair of the means
    and the variances the decoder put in the generative outputs, and on
    a batch of [B] cells, with sub-modules of the shapes [__init__]
    gives them, both tensors of the pair are [B] by [n_genes]. *)
Theorem get_expression_by_likelihood self tensors s :
  (loss_ae self = nb ->
   exists e, get_expression self tensors s = Raise e) /\
  (loss_ae self = gauss ->
   forall io go s',
     forward self tensors s = Ok ((io, go), s') ->
     exists mus stds,
       get_expression self tensors s = Ok ((mus, stds), s') /\
       means go = Some mus /\ variances go = Some stds /\
       forall B,
         shapes_as_constructed self -> batch_of self B tensors ->
         (nrow mus = B /\ ncol mus = n_genes self) /\
         (nrow stds = B /\ ncol stds = n_genes self)).
Proof.
  split.
  - intros Hnb. unfold get_expression.
    destruct (forward_nb_raises self tensors s Hnb) as [e He].
    exists e. by apply M_bind_Raise.
  - intros Hgauss io go s' Hrun.
    destruct (get_expression_gauss _ _ _ _ _ _ Hgauss Hrun)
      as (mus & stds & Hget & Hm & Hv & Hshapes).
    exists mus, stds. split; [exact Hget|]. split; [exact Hm|].
    split; [exact Hv|]. exact Hshapes.
Qed.

(** C8, as the code has it: a covariate of the vocabulary that the batch
    lacks makes the input preparation, and with it the forward pass,
    raise a [KeyError] for a missing key, which nothing catches; a
    name the vocabulary does not have is not read, and the forward pass
    runs as without it. *)
Theorem forward_covariate_names self tensors s :
  (forall covar,
      covar ∈ (covars_to_ncovars self).*1 ->
      levels tensors !! covar = None ->
      exists key,
        forward self tensors s = Raise (KeyError key) /\
        (floats tensors !! key = None \/ levels tensors !! key = None)) /\
  (forall name v,
      name ∉ (covars_to_ncovars self).*1 ->
      forward self {| floats := floats tensors;
                      levels := <[name := v]> (levels tensors) |} s =
      forward self tensors s).
Proof.
  split.
  - intros covar Hin Hnone.
    destruct (_get_inference_input_missing self tensors covar Hin Hnone)
      as (key & Hraise & Hkey).
    exists key. split; [|done]. unfold forward.
    apply M_bind_Raise. by rewrite Hraise.
  - intros name v Hnot. unfold forward.
    assert (_get_inference_input self
              {| floats := floats tensors;
                 levels := <[name := v]> (levels tensors) |} =
            _get_inference_input self tensors) as ->.
    { unfold _get_inference_input. simpl.
      by rewrite collect_covars_extra. }
    apply M_bind_ext. intros ii s1. apply M_bind_ext. intros io s2.
    unfold _get_generative_input.
    by rewrite encode_covars_extra.
Qed.
End Forward.

(** ** loss *)

Section Loss.
Context {F : Type} `{Scalar F}.
Context {St graphed Normal NegativeBinomial : Type}.
Context `{Torch F graphed Normal} `{CE_CONSTANTS}.
Implicit Types self : CPAModule F St graphed NegativeBinomial.
Implicit Types tensors : batch F.
Implicit Types io : inference_outputs F Normal.
Implicit Types go : generative_outputs F graphed NegativeBinomial.

Lemma foldl_ext_elem {A B} (f g : A -> B -> A) (l : list B) (a : A) :
  (forall x, x ∈ l -> forall a, f a x = g a x) ->
  foldl f a l = foldl g a l.
Proof.
  revert a. induction l as [|x l IH]; intros a Hfg; simpl; [done|].
  rewrite Hfg by (apply elem_of_cons; by left).
  apply IH. intros y Hy. apply Hfg, elem_of_cons. by right.
Qed.

(** The sum and the mean only read the entries inside the shape. *)
Lemma tsum_ext (a b : tensor F) : tensor_eq a b -> tsum a = tsum b.
Proof.
  intros (Hr & Hk & He). unfold tsum. rewrite <- Hr.
  apply foldl_ext_elem. intros i [_ Hi]%elem_of_seq acc.
  unfold row_sum. rewrite <- Hk.
  apply foldl_ext_elem. intros j [_ Hj]%elem_of_seq acc'.
  rewrite He by lia. done.
Qed.

Lemma tmean_ext (a b : tensor F) : tensor_eq a b -> tmean a = tmean b.
Proof.
  intros Hab. unfold tmean, numel. rewrite (tsum_ext _ _ Hab).
  destruct Hab as (-> & -> & _). done.
Qed.

Lemma broadcast2_same op (a b : tensor F) :
  nrow a = nrow b -> ncol a = ncol b ->
  exists c, broadcast2 op a b = Ok c /\
    tensor_eq c {| nrow := nrow a; ncol := ncol a;
                   entry i j := op (entry a i j) (entry b i j) |}.
Proof.
  intros Hr Hk. destruct (broadcast2_defined op a b Hr Hk) as [c Hc].
  exists c. split; [done|]. by apply broadcast2_same_shape.
Qed.

(** The value of [loss] under ["gauss"] on operands of one shape. *)
Lemma loss_gauss_Ok self tensors io go x m v :
  loss_ae self = gauss ->
  floats tensors !! X_KEY = Some x ->
  means go = Some m -> variances go = Some v ->
  same_shape x m -> same_shape x v ->
  loss self tensors io go = Ok (tmean (gauss_nll_tensor x m v)).
Proof.
  intros Hgauss HX Hm Hv [Hr1 Hk1]%same_shape_spec [Hr2 Hk2]%same_shape_spec.
  unfold loss, getitem. rewrite HX, Hm, Hv. simpl.
  rewrite decide_True by done.
  destruct (broadcast2_same fsub x m Hr1 Hk1) as (d & Hd & Dr & Dk & De).
  unfold tsub. rewrite Hd. simpl in *.
  destruct (broadcast2_same fdiv (tpow2 d) (tmul2 v))
    as (t2 & Ht2 & Tr & Tk & Te); [simpl; congruence..|].
  unfold tdiv. rewrite Ht2. simpl in *.
  destruct (broadcast2_same fadd (tdiv2 (tlog v)) t2)
    as (t & Ht & Sr & Sk & Se); [simpl; congruence..|].
  unfold tadd. rewrite Ht. simpl in *.
  f_equal. apply tmean_ext. repeat split; simpl; [congruence..|].
  intros i j Hi Hj.
  rewrite Se, Te, De by congruence. done.
Qed.

(** C2, as the code has it: under ["gauss"], on an expression matrix,
    means and variances of one shape, [loss] returns one scalar, the
    mean over all entries of [log(variance)/2 + (x - mean)^2 /
    (variance*2)]; neither the variational flag nor the rest of the
    module, nor [dist_qz] and the other inference outputs, enter it: no
    KL term is added. *)
Theorem loss_gauss_formula self tensors io go x m v :
  loss_ae self = gauss ->
  floats tensors !! X_KEY = Some x ->
  means go = Some m -> variances go = Some v ->
  same_shape x m -> same_shape x v ->
  loss self tensors io go = Ok (tmean (gauss_nll_tensor x m v)) /\
  forall self' io',
    loss_ae self' = gauss ->
    loss self' tensors io' go = loss self tensors io go.
Proof.
  intros Hgauss HX Hm Hv Hxm Hxv. split; [by apply loss_gauss_Ok|].
  intros self' io' Hgauss'.
  rewrite (loss_gauss_Ok self' tensors io' go x m v) by done.
  by rewrite (loss_gauss_Ok self tensors io go x m v).
Qed.

(** C9: under ["nb"] no call of [loss] returns a value; on the outputs of
    [generative] it stops at the missing key ["means"]. *)
Theorem loss_nb_fails self :
  loss_ae self = nb ->
  (forall tensors io go, exists e, loss self tensors io go = Raise e) /\
  (forall tensors io z lb s go s',
      generative self z lb s = Ok (go, s') ->
      is_Some (floats tensors !! X_KEY) ->
      loss self tensors io go = Raise (KeyError "means")).
Proof.
  intros Hnb. split.
  - intros tensors io go. unfold loss, getitem, getkey.
    destruct (floats tensors !! X_KEY); simpl; [|eauto].
    destruct (means go); simpl; [|eauto].
    destruct (variances go); simpl; [|eauto].
    rewrite decide_False by congruence. simpl. eauto.
  - intros tensors io z lb s go s' Hgen [x HX].
    apply generative_Ok in Hgen as (dp & s1 & cp & s2 & _ & _ & Hdec & _).
    apply decode_Ok in Hdec as (_ & _ & Hkeys).
    rewrite Hnb in Hkeys. destruct Hkeys as (Hmeans & _).
    unfold loss, getitem. rewrite HX, Hmeans. done.
Qed.
End Loss.

(** ** adversarial_loss *)

Section Adversarial.
Context {F : Type} `{Scalar F}.
Context {St graphed Normal NegativeBinomial : Type}.
Context `{Torch F graphed Normal} `{CE_CONSTANTS}.
Implicit Types self : CPAModule F St graphed NegativeBinomial.
Implicit Types tensors : batch F.
Implicit Types io : inference_outputs F Normal.
Implicit Types go : generative_outputs F graphed NegativeBinomial.

Lemma adv_covars_loop_Ok vocab cp covars acc l :
  adv_covars_loop vocab cp covars acc = Ok l ->
  exists ces,
    Forall2 (covariate_cross_entropy cp covars) vocab ces /\
    l = foldl fadd acc ces.
Proof.
  revert acc l. induction vocab as [|[covar n] vocab IH]; intros acc l; simpl.
  - intros [= <-]. exists []. split; [constructor|done].
  - intros Hrun.
    apply rbind_Ok in Hrun as (pred & Hpred & Hrun).
    apply rbind_Ok in Hrun as (idx & Hidx & Hrun).
    apply rbind_Ok in Hrun as (ce & Hce & Hrun).
    unfold getitem in *.
    destruct (cp !! covar) eqn:Hcp; [|done].
    destruct (covars !! covar) eqn:Hcov; [|done]. simplify_eq.
    destruct (IH _ _ Hrun) as (ces & Hces & ->).
    exists (ce :: ces). split; [|done].
    constructor; [|done]. by exists pred, idx.
Qed.

Lemma grad_penalty_Ok pred lb p :
  grad_penalty pred lb = Ok p ->
  exists g, autograd_grad_sum pred lb = Ok g /\ p = mean_square g.
Proof. unfold grad_penalty. intros Hrun. run_inv. eauto. Qed.

Lemma adv_penalty_loop_Ok vocab cp lb acc p :
  adv_penalty_loop vocab cp lb acc = Ok p ->
  exists grads,
    Forall2 (covariate_gradient cp lb) vocab grads /\
    p = foldl fadd acc (mean_square <$> grads).
Proof.
  revert acc p. induction vocab as [|[covar n] vocab IH]; intros acc p; simpl.
  - intros [= <-]. exists []. split; [constructor|done].
  - intros Hrun.
    apply rbind_Ok in Hrun as (pred & Hpred & Hrun).
    apply rbind_Ok in Hrun as (pen & Hpen & Hrun).
    unfold getitem in *.
    destruct (cp !! covar) eqn:Hcp; [|done]. simplify_eq.
    apply grad_penalty_Ok in Hpen as (g & Hg & ->).
    destruct (IH _ _ Hrun) as (grads & Hgrads & ->).
    exists (g :: grads). split; [|done].
    constructor; [|done]. by exists pred.
Qed.

(** The steps of a call of [adversarial_loss] that returns. *)
Lemma adversarial_loss_Ok self tensors io go adv_loss adv_penalty :
  adversarial_loss self tensors io go = Ok (adv_loss, adv_penalty) ->
  exists doses dp cp ces bce grads gd,
    floats tensors !! PERTURBATIONS = Some doses /\
    drugs_pred go = Some dp /\ covars_pred go = Some cp /\
    Forall2 (covariate_cross_entropy cp (covars_dict io))
            (covars_to_ncovars self) ces /\
    BCEWithLogitsLoss (data dp) (tgt0_float doses) = Ok bce /\
    adv_loss = fadd bce (total ces) /\
    Forall2 (covariate_gradient cp (latent_basal io))
            (covars_to_ncovars self) grads /\
    autograd_grad_sum dp (latent_basal io) = Ok gd /\
    adv_penalty = fadd (total (mean_square <$> grads)) (mean_square gd).
Proof.
  unfold adversarial_loss, getitem, getkey. intros Hrun.
  destruct (floats tensors !! PERTURBATIONS) as [doses|]; [|done].
  destruct (drugs_pred go) as [dp|]; [|done].
  destruct (covars_pred go) as [cp|]; [|done].
  simpl in Hrun. run_inv.
  repeat match goal with
  | Hl : adv_covars_loop _ _ _ _ = Ok _ |- _ =>
      apply adv_covars_loop_Ok in Hl as (ces & Hces & ->)
  | Hl : adv_penalty_loop _ _ _ _ = Ok _ |- _ =>
      apply adv_penalty_loop_Ok in Hl as (grads & Hgrads & ->)
  | Hl : grad_penalty _ _ = Ok _ |- _ =>
      apply grad_penalty_Ok in Hl as (gd & Hgd & ->)
  end.
  exists doses, dp, cp, ces. eexists. exists grads, gd.
  repeat split; try done.
Qed.

Lemma adv_covars_loop_returns vocab cp covars acc ces :
  Forall2 (covariate_cross_entropy cp covars) vocab ces ->
  adv_covars_loop vocab cp covars acc = Ok (foldl fadd acc ces).
Proof.
  intros Hces. revert acc.
  induction Hces as [|[covar n] ce vocab ces (pred & idx & Hp & Hi & Hce) _ IH];
    intros acc; simpl; [done|].
  simpl in Hp, Hi. unfold getitem. rewrite Hp, Hi. simpl. rewrite Hce. simpl.
  apply IH.
Qed.

Lemma adv_penalty_loop_returns vocab cp lb acc grads :
  Forall2 (covariate_gradient cp lb) vocab grads ->
  adv_penalty_loop vocab cp lb acc
    = Ok (foldl fadd acc (mean_square <$> grads)).
Proof.
  intros Hgrads. revert acc.
  induction Hgrads as [|[covar n] g vocab grads (pred & Hp & Hg) _ IH];
    intros acc; simpl; [done|].
  simpl in Hp. unfold getitem. rewrite Hp. simpl.
  unfold grad_penalty. rewrite Hg. simpl. apply IH.
Qed.

(** [adversarial_loss] returns as soon as its inputs have the keys it
    reads and the torch losses and gradients it calls are defined. *)
Lemma adversarial_loss_returns self tensors io go doses dp cp ces bce
    grads gd :
  floats tensors !! PERTURBATIONS = Some doses ->
  drugs_pred go = Some dp -> covars_pred go = Some cp ->
  Forall2 (covariate_cross_entropy cp (covars_dict io))
          (covars_to_ncovars self) ces ->
  BCEWithLogitsLoss (data dp) (tgt0_float doses) = Ok bce ->
  Forall2 (covariate_gradient cp (latent_basal io))
          (covars_to_ncovars self) grads ->
  autograd_grad_sum dp (latent_basal io) = Ok gd ->
  adversarial_loss self tensors io go
    = Ok (fadd bce (total ces),
          fadd (total (mean_square <$> grads)) (mean_square gd)).
Proof.
  intros HP Hdp Hcp Hces Hbce Hgrads Hgd.
  unfold adversarial_loss, getitem. rewrite HP, Hdp, Hcp. simpl.
  rewrite (adv_covars_loop_returns _ _ _ _ _ Hces). simpl.
  rewrite Hbce. simpl.
  rewrite (adv_penalty_loop_returns _ _ _ _ _ Hgrads). simpl.
  unfold grad_penalty. rewrite Hgd. done.
Qed.

(** C3: the first component of [adversarial_loss] is the drug classifier's
    binary cross-entropy with logits, against the target that is 1 where
    the dose is above zero and 0 elsewhere, plus the sum over the
    covariates of the vocabulary of the cross-entropy of the covariate
    classifier's logits against the covariate's levels: every call that
    returns has this first component, and the call returns it as soon as
    these losses and the gradients of the penalty are defined. *)
Theorem adversarial_loss_classification self tensors io go :
  (forall adv_loss adv_penalty,
      adversarial_loss self tensors io go = Ok (adv_loss, adv_penalty) ->
      exists doses dp cp ces bce target,
        floats tensors !! PERTURBATIONS = Some doses /\
        drugs_pred go = Some dp /\ covars_pred go = Some cp /\
        Forall2 (covariate_cross_entropy cp (covars_dict io))
                (covars_to_ncovars self) ces /\
        tensor_eq target {| nrow := nrow doses; ncol := ncol doses;
                            entry i j := presence (entry doses i j) |} /\
        BCEWithLogitsLoss (data dp) target = Ok bce /\
        adv_loss = fadd bce (total ces)) /\
  (forall doses dp cp ces bce grads gd,
      floats tensors !! PERTURBATIONS = Some doses ->
      drugs_pred go = Some dp -> covars_pred go = Some cp ->
      Forall2 (covariate_cross_entropy cp (covars_dict io))
              (covars_to_ncovars self) ces ->
      BCEWithLogitsLoss (data dp) (tgt0_float doses) = Ok bce ->
      Forall2 (covariate_gradient cp (latent_basal io))
              (covars_to_ncovars self) grads ->
      autograd_grad_sum dp (latent_basal io) = Ok gd ->
      exists adv_penalty,
        adversarial_loss self tensors io go
          = Ok (fadd bce (total ces), adv_penalty)).
Proof.
  split.
  - intros adv_loss adv_penalty
      (doses & dp & cp & ces & bce & _ & _ & HP & Hdp & Hcp & Hces
       & Hbce & -> & _)%adversarial_loss_Ok.
    exists doses, dp, cp, ces, bce, (tgt0_float doses).
    repeat split; done.
  - intros doses dp cp ces bce grads gd HP Hdp Hcp Hces Hbce Hgrads Hgd.
    eexists. by eapply adversarial_loss_returns.
Qed.
End Adversarial.

(** ** The losses on IEEE-754 scalars *)

Section IEEESigns.
Variables prec emax : Z.

(** Rounding a magnitude keeps the sign it is given: the result is a
    NaN or has its sign bit clear. *)
Lemma binary_round_aux_sign mx ex lx :
  sign_clear (binary_round_aux prec emax false mx ex lx).
Proof.
  unfold binary_round_aux.
  destruct (shr_fexp prec emax mx ex lx) as [mrs' e'].
  destruct (shr_fexp prec emax _ e' loc_Exact) as [mrs'' e''].
  destruct (shr_m mrs''); [done| |done].
  by destruct (Z.leb e'' (Z.sub emax prec)).
Qed.

Lemma binary_round_sign mx ex :
  sign_clear (binary_round prec emax false mx ex).
Proof.
  unfold binary_round. destruct (shl_align _ _ _) as [mz ez].
  apply binary_round_aux_sign.
Qed.

Lemma IEEE_of_nat_sign n : sign_clear (IEEE_of_nat prec emax n).
Proof.
  unfold IEEE_of_nat. destruct n as [|n]; simpl; [done|].
  apply binary_round_sign.
Qed.

Lemma SFmul_self_sign x : sign_clear (SFmul prec emax x x).
Proof.
  destruct x as [[]|[]| |[] m e]; simpl; try done;
    apply binary_round_aux_sign.
Qed.

Lemma SFadd_sign x y :
  sign_clear x -> sign_clear y -> sign_clear (SFadd prec emax x y).
Proof.
  destruct x as [[]|[]| |[] mx ex], y as [[]|[]| |[] my ey];
    simpl; try done.
  intros _ _. apply binary_round_sign.
Qed.

Lemma SFdiv_sign x y :
  sign_clear x -> sign_clear y -> sign_clear (SFdiv prec emax x y).
Proof.
  destruct x as [[]|[]| |[] mx ex], y as [[]|[]| |[] my ey];
    simpl; try done.
  intros _ _.
  destruct (SFdiv_core_binary prec emax _ _ _ _) as [[mz ez] lz].
  apply binary_round_aux_sign.
Qed.

Lemma sign_clear_ge0 x : sign_clear x -> is_nan x = true \/ ge0 x = true.
Proof. destruct x as [[]|[]| |[] m e]; simpl; auto. Qed.

(** Without a NaN among the operands there is none in the result: the
    mantissa stays non-negative through the shifts of the rounding. *)
Lemma shr_1_nonneg mrs : (0 <= shr_m mrs)%Z -> (0 <= shr_m (shr_1 mrs))%Z.
Proof.
  destruct mrs as [m r s]. destruct m as [|[p|p|]|p]; simpl; lia.
Qed.

Lemma iter_pos_shr_1_nonneg p mrs :
  (0 <= shr_m mrs)%Z -> (0 <= shr_m (SpecFloat.iter_pos shr_1 p mrs))%Z.
Proof.
  revert mrs. induction p as [p IH|p IH|]; intros mrs Hm; simpl;
    auto using shr_1_nonneg.
Qed.

Lemma shr_fexp_nonneg m e l :
  (0 <= m)%Z -> (0 <= shr_m (shr_fexp prec emax m e l).1)%Z.
Proof.
  intros Hm. unfold shr_fexp, shr.
  assert (0 <= shr_m (shr_record_of_loc m l))%Z as Hrec
    by (by destruct l as [|[]]).
  destruct (Z.sub _ e); simpl; auto using iter_pos_shr_1_nonneg.
Qed.

Lemma round_nearest_even_nonneg m l :
  (0 <= m)%Z -> (0 <= round_nearest_even m l)%Z.
Proof.
  intros Hm. destruct l as [|[]]; simpl; try destruct (Z.even m); lia.
Qed.

Lemma binary_round_aux_nonneg mx ex lx :
  (0 <= mx)%Z -> nonneg (binary_round_aux prec emax false mx ex lx).
Proof.
  intros Hm. unfold binary_round_aux.
  pose proof (shr_fexp_nonneg mx ex lx Hm) as H1.
  destruct (shr_fexp prec emax mx ex lx) as [mrs' e']. simpl in H1.
  pose proof (shr_fexp_nonneg _ e' loc_Exact
                (round_nearest_even_nonneg _ (loc_of_shr_record mrs') H1))
    as H2.
  destruct (shr_fexp prec emax _ e' loc_Exact) as [mrs'' e'']. simpl in H2.
  destruct (shr_m mrs''); [done| |lia].
  by destruct (Z.leb e'' (Z.sub emax prec)).
Qed.

Lemma binary_round_nonneg mx ex :
  nonneg (binary_round prec emax false mx ex).
Proof.
  unfold binary_round. destruct (shl_align _ _ _) as [mz ez].
  apply binary_round_aux_nonneg. lia.
Qed.

Lemma SFmul_self_nonneg x :
  is_nan x = false -> nonneg (SFmul prec emax x x).
Proof.
  destruct x as [[]|[]| |[] m e]; simpl; try done; intros _;
    apply binary_round_aux_nonneg; lia.
Qed.

Lemma SFadd_nonneg x y :
  nonneg x -> nonneg y -> nonneg (SFadd prec emax x y).
Proof.
  destruct x as [[]|[]| |[] mx ex], y as [[]|[]| |[] my ey];
    simpl; try done.
  intros _ _. apply binary_round_nonneg.
Qed.

Lemma SFdiv_core_binary_nonneg m1 e1 m2 e2 q e l :
  SFdiv_core_binary prec emax (Zpos m1) e1 (Zpos m2) e2 = (q, e, l) ->
  (0 <= q)%Z.
Proof.
  unfold SFdiv_core_binary.
  set (s := Z.sub (Z.sub e1 e2) _).
  set (m' := match s with Zpos _ => _ | Z0 => _ | Zneg _ => _ end).
  assert (0 <= m')%Z as Hm'.
  { subst m'. destruct s; try lia. apply Z.shiftl_nonneg. lia. }
  destruct (Z.div_eucl m' (Zpos m2)) as [q' r'] eqn:Hd.
  intros [= <- _ _].
  assert (q' = (m' / Zpos m2)%Z) as -> by (unfold Z.div; by rewrite Hd).
  apply Z.div_pos; lia.
Qed.

(** A quotient by a positive finite divisor. *)
Lemma SFdiv_nonneg x d :
  nonneg x -> is_finite d = true -> gt0 d = true ->
  nonneg (SFdiv prec emax x d).
Proof.
  destruct x as [[]|[]| |[] mx ex], d as [[]|[]| |[] my ey];
    simpl; try done.
  intros _ _ _.
  destruct (SFdiv_core_binary prec emax _ _ _ _) as [[mz ez] lz] eqn:Hcore.
  apply binary_round_aux_nonneg. by eapply SFdiv_core_binary_nonneg.
Qed.

Lemma nonneg_ge0 x : nonneg x -> ge0 x = true.
Proof. by destruct x as [[]|[]| |[] m e]. Qed.
End IEEESigns.

Section IEEELosses.
Variables prec emax : Z.
Variable log_kernel : spec_float -> spec_float.
Context {St graphed Normal NegativeBinomial : Type}.
Context `{Torch spec_float graphed Normal} `{CE_CONSTANTS}.
Implicit Types self : CPAModule spec_float St graphed NegativeBinomial.

Local Abbreviation K := (IEEE prec emax log_kernel).

Lemma foldl_sign {A} (f : spec_float -> A -> spec_float) (l : list A) acc :
  (forall x, x ∈ l -> forall a, sign_clear a -> sign_clear (f a x)) ->
  sign_clear acc -> sign_clear (foldl f acc l).
Proof.
  revert acc. induction l as [|x l IH]; intros acc Hf Hacc; simpl; [done|].
  apply IH.
  - intros y Hy. apply Hf, elem_of_cons. by right.
  - apply Hf; [apply elem_of_cons; by left|done].
Qed.

(** The mean of the squares of a tensor is a NaN or has its sign bit
    clear. *)
Lemma mean_square_sign (g : tensor spec_float) :
  sign_clear (mean_square (H := K) g).
Proof.
  unfold mean_square, tmean. apply SFdiv_sign; [|apply IEEE_of_nat_sign].
  unfold tsum. apply foldl_sign; [|done].
  intros i _ acc Hacc. unfold row_sum. apply foldl_sign; [|done].
  intros j _ acc' Hacc'. simpl. apply SFadd_sign; [done|].
  apply SFmul_self_sign.
Qed.

Lemma total_sign (xs : list spec_float) :
  Forall (fun x => sign_clear x) xs -> sign_clear (total (H := K) xs).
Proof.
  intros Hxs. unfold total. apply foldl_sign; [|done].
  intros x Hx acc Hacc. rewrite Forall_forall in Hxs.
  apply SFadd_sign; auto.
Qed.

Lemma foldl_nonneg {A} (f : spec_float -> A -> spec_float) (l : list A) acc :
  (forall x, x ∈ l -> forall a, nonneg a -> nonneg (f a x)) ->
  nonneg acc -> nonneg (foldl f acc l).
Proof.
  revert acc. induction l as [|x l IH]; intros acc Hf Hacc; simpl; [done|].
  apply IH.
  - intros y Hy. apply Hf, elem_of_cons. by right.
  - apply Hf; [apply elem_of_cons; by left|done].
Qed.

(** The mean of the squares of a counted tensor without a NaN is not a
    NaN and has its sign bit clear. *)
Lemma mean_square_nonneg (g : tensor spec_float) :
  no_nan g -> counted prec emax g -> nonneg (mean_square (H := K) g).
Proof.
  intros Hnan [Hfin Hpos]. unfold mean_square, tmean.
  apply SFdiv_nonneg; [|exact Hfin|exact Hpos].
  unfold tsum. apply foldl_nonneg; [|done].
  intros i [_ Hi]%elem_of_seq acc Hacc. unfold row_sum.
  apply foldl_nonneg; [|done].
  intros j [_ Hj]%elem_of_seq acc' Hacc'. simpl in *.
  apply SFadd_nonneg; [done|].
  apply SFmul_self_nonneg, Hnan; lia.
Qed.

Lemma total_nonneg (xs : list spec_float) :
  Forall (fun x => nonneg x) xs -> nonneg (total (H := K) xs).
Proof.
  intros Hxs. unfold total. apply foldl_nonneg; [|done].
  intros x Hx acc Hacc. rewrite Forall_forall in Hxs.
  apply SFadd_nonneg; auto.
Qed.

(** C4, as the code has it: the second component of [adversarial_loss]
    is the sum over the covariate classifiers, plus the drug classifier,
    of the mean over the batch and latent dimensions of the squared
    gradient of the classifier's summed logits with respect to the basal
    latent; it is never negative: it is greater than or equal to zero or
    it is a NaN, and it is greater than or equal to zero whenever no
    gradient holds a NaN and every gradient tensor has entries (whose
    count does not overflow). *)
Theorem adversarial_penalty_sign self tensors io go adv_loss adv_penalty :
  adversarial_loss (H := K) self tensors io go
    = Ok (adv_loss, adv_penalty) ->
  (exists dp cp grads gd,
      drugs_pred go = Some dp /\ covars_pred go = Some cp /\
      Forall2 (covariate_gradient cp (latent_basal io))
              (covars_to_ncovars self) grads /\
      autograd_grad_sum dp (latent_basal io) = Ok gd /\
      adv_penalty = fadd (Scalar := K)
                      (total (H := K) (mean_square (H := K) <$> grads))
                      (mean_square (H := K) gd) /\
      (Forall (fun g => no_nan g /\ counted prec emax g) (gd :: grads) ->
       ge0 adv_penalty = true)) /\
  (is_nan adv_penalty = true \/ ge0 adv_penalty = true).
Proof.
  intros (doses & dp & cp & ces & bce & grads & gd & _ & Hdp & Hcp & _ & _
          & _ & Hgrads & Hgd & ->)%adversarial_loss_Ok.
  split.
  - exists dp, cp, grads, gd. repeat split; try done.
    intros Hall. inversion Hall as [|? ? [Hnan Hcount] Hrest]; subst.
    apply nonneg_ge0. simpl. apply SFadd_nonneg.
    + apply total_nonneg, Forall_fmap.
      eapply Forall_impl; [exact Hrest|].
      intros g [? ?]. by apply mean_square_nonneg.
    + by apply mean_square_nonneg.
  - apply sign_clear_ge0. simpl. apply SFadd_sign.
    + apply total_sign. apply Forall_fmap, Forall_forall.
      intros g _. apply mean_square_sign.
    + apply mean_square_sign.
Qed.
End IEEELosses.

(** ** Runs on the example instance *)

Section Runs.
Import Example.

(** One entry of variance [2^-126], expression 4 and mean 0: whatever
    the [log] kernel returns, the quotient [(x - mean)^2 / (variance*2)],
    [2^129], overflows and the mean is not finite. *)
Lemma tiny_variance_mean (y : spec_float) :
  is_finite
    (SFdiv 24 128
       (SFadd 24 128 (S754_zero false)
          (SFadd 24 128 y
             (SFdiv 24 128
                (SFmul 24 128 (SFsub 24 128 (num 4) (num 0))
                              (SFsub 24 128 (num 4) (num 0)))
                (SFmul 24 128 tiny (num 2)))))
       (num (1 * 1))) = false.
Proof. destruct y as [[]|[]| |[] m e]; vm_compute; reflexivity. Qed.

(** C2, refuted as stated: a strictly positive, finite variance with a
    [loss] that is not finite. *)
Lemma loss_gauss_not_finite_at_tiny_variance :
  gt0 tiny = true /\ is_finite tiny = true /\
  forall log_kernel, exists r,
    loss (H := IEEE 24 128 log_kernel) (module gauss false vocabulary)
         tensors_one inference_outputs_one outputs_tiny_variance = Ok r /\
    is_finite r = false.
Proof.
  split; [reflexivity|]. split; [reflexivity|]. intros log_kernel.
  eexists. split.
  - apply (loss_gauss_Ok (H := IEEE 24 128 log_kernel) _ _ _ _
             (const 1 1 (num 4)) (const 1 1 (num 0)) (const 1 1 tiny));
      reflexivity.
  - exact (tiny_variance_mean
             (SFdiv 24 128 (log_kernel tiny) (num 2))).
Qed.

(** C4, refuted as stated: on a batch without cells the penalty is the
    mean of an empty tensor, a NaN, which is not [>= 0]. *)
Lemma adversarial_penalty_nan_on_empty_batch :
  exists io go s' adv_loss adv_penalty,
    forward (module gauss false vocabulary) tensors_empty 0
      = Ok ((io, go), s') /\
    adversarial_loss (module gauss false vocabulary) tensors_empty io go
      = Ok (adv_loss, adv_penalty) /\
    is_nan adv_penalty = true /\ ge0 adv_penalty = false.
Proof.
  eexists _, _, _, _, _. split; [vm_compute; reflexivity|].
  split; [vm_compute; reflexivity|]. split; reflexivity.
Qed.

(** C8, refuted as stated: a batch that names a covariate the vocabulary
    does not have goes through the forward pass. *)
Lemma extra_covariate_name_is_accepted :
  ("donor" ∉ vocabulary.*1) /\
  levels tensors_extra !! "donor" = Some [0%Z] /\
  exists io go s',
    forward (module gauss false vocabulary) tensors_extra 0
      = Ok ((io, go), s').
Proof.
  split; [by intros [=]%list_elem_of_singleton|].
  split; [reflexivity|].
  eexists _, _, _. vm_compute. reflexivity.
Qed.

Lemma example_shapes l v :
  shapes_as_constructed (module l v vocabulary).
Proof.
  split.
  - intros x s d z s' Hrun. destruct v; cbv in Hrun; by simplify_eq.
  - intros x s z s' Hrun. cbv in Hrun. by simplify_eq.
  - intros covar n [= _ ->]%list_elem_of_singleton. done.
  - intros z dp cp s go' s' m Hrun Hm. destruct l; cbv in Hrun;
      simplify_eq; simpl in Hm; destruct Hm; by simplify_eq.
Qed.

Lemma example_batch l v : batch_of (module l v vocabulary) 1 tensors.
Proof.
  split.
  - eexists. split; [reflexivity|done].
  - eexists. split; [reflexivity|done].
  - intros covar n [= -> ->]%list_elem_of_singleton. split; [lia|].
    eexists. split; [reflexivity|]. split; [reflexivity|].
    repeat constructor; lia.
Qed.

Lemma example_levels l v :
  levels_of (module l v vocabulary) 1 {[ "cell_type" := [1%Z] ]}.
Proof.
  intros covar n [= -> ->]%list_elem_of_singleton.
  eexists. split; [reflexivity|]. split; [reflexivity|].
  repeat constructor; lia.
Qed.

Lemma inference_latent_composition_witness :
  exists out s',
    inference (module gauss false vocabulary) (const 1 2 (num 4))
              (const 1 1 (num 1)) {[ "cell_type" := [1%Z] ]} 0
      = Ok (out, s') /\
    exists embs drug,
      covariate_embeddings (module gauss false vocabulary)
                           {[ "cell_type" := [1%Z] ]} embs /\
      exists partial,
        tadd (latent_basal out) (sum0 embs) = Ok partial /\
        tadd partial drug = Ok (latent out).
Proof.
  destruct (inference_latent_composition
              (module gauss false vocabulary) (const 1 2 (num 4))
              (const 1 1 (num 1)) {[ "cell_type" := [1%Z] ]} 0)
    as [Hreturns Hsum].
  destruct (Hreturns None (const 1 2 (num 5)) 1 None 1 (const 1 2 (num 2)) 2)
    as (out & Hrun & _);
    [ apply example_shapes | discriminate | apply example_levels
    | reflexivity | reflexivity | reflexivity | reflexivity | ].
  exists out, 2. split; [exact Hrun|].
  destruct (Hsum out 2 Hrun)
    as (embs & drug & s1 & s2 & _ & Hembs & _ & Hpartial & _).
  exists embs, drug. split; [exact Hembs|exact Hpartial].
Defined.

Lemma inference_nullable_fields_witness :
  exists out s',
    inference (module nb true vocabulary) (const 1 2 (num 4))
              (const 1 1 (num 1)) {[ "cell_type" := [1%Z] ]} 0
      = Ok (out, s') /\
    (dist_qz out = None <-> true = false) /\
    (library out = None <-> nb <> nb).
Proof.
  assert (exists out s',
             inference (module nb true vocabulary) (const 1 2 (num 4))
                       (const 1 1 (num 1)) {[ "cell_type" := [1%Z] ]} 0
             = Ok (out, s')) as (out & s' & Hrun)
    by (eexists _, _; vm_compute; reflexivity).
  exists out, s'. split; [exact Hrun|].
  exact (inference_nullable_fields _ _ _ _ _ _ _ Hrun).
Defined.

Lemma inference_empty_vocabulary_raises_witness :
  inference (module gauss false []) (const 1 2 (num 4))
            (const 1 1 (num 1)) ∅ 0 = Raise RuntimeError.
Proof.
  destruct (inference_empty_vocabulary_raises (module gauss false [])
              (const 1 2 (num 4)) (const 1 1 (num 1)) ∅ 0 eq_refl)
    as [_ Hcat].
  apply (Hcat (None, const 1 2 (num 5)) 1 None 1); reflexivity.
Defined.

Lemma generative_predictions_from_basal_witness :
  exists go1 s1 go2 s2,
    generative (module gauss false vocabulary) (const 1 2 (num 8))
               (const 1 2 (num 5)) 0 = Ok (go1, s1) /\
    generative (module gauss false vocabulary) (const 1 2 (num 0))
               (const 1 2 (num 5)) 0 = Ok (go2, s2) /\
    drugs_pred go1 = drugs_pred go2 /\ covars_pred go1 = covars_pred go2.
Proof.
  assert (exists go1 s1,
             generative (module gauss false vocabulary) (const 1 2 (num 8))
                        (const 1 2 (num 5)) 0 = Ok (go1, s1))
    as (go1 & s1 & Hrun1) by (eexists _, _; vm_compute; reflexivity).
  assert (exists go2 s2,
             generative (module gauss false vocabulary) (const 1 2 (num 0))
                        (const 1 2 (num 5)) 0 = Ok (go2, s2))
    as (go2 & s2 & Hrun2) by (eexists _, _; vm_compute; reflexivity).
  exists go1, s1, go2, s2. split; [exact Hrun1|]. split; [exact Hrun2|].
  destruct (generative_predictions_from_basal _ _ _ _ _ _ _ _ _ Hrun1 Hrun2)
    as (Hd & Hc & _).
  split; [exact Hd|exact Hc].
Defined.

Lemma get_expression_by_likelihood_witness :
  (exists e, get_expression (module nb false vocabulary) tensors 0
             = Raise e) /\
  (exists io go s' mus stds,
      forward (module gauss false vocabulary) tensors 0
        = Ok ((io, go), s') /\
      get_expression (module gauss false vocabulary) tensors 0
        = Ok ((mus, stds), s') /\
      means go = Some mus /\ variances go = Some stds /\
      (nrow mus = 1 /\ ncol mus = 2) /\ (nrow stds = 1 /\ ncol stds = 2)).
Proof.
  split.
  - apply (get_expression_by_likelihood (module nb false vocabulary)).
    reflexivity.
  - assert (exists io go s',
               forward (module gauss false vocabulary) tensors 0
               = Ok ((io, go), s')) as (io & go & s' & Hrun)
      by (eexists _, _, _; vm_compute; reflexivity).
    destruct (get_expression_by_likelihood
                (module gauss false vocabulary) tensors 0)
      as [_ Hgauss].
    destruct (Hgauss eq_refl io go s' Hrun)
      as (mus & stds & Hget & Hm & Hv & Hshapes).
    exists io, go, s', mus, stds.
    split; [exact Hrun|]. split; [exact Hget|].
    split; [exact Hm|]. split; [exact Hv|].
    apply (Hshapes 1); [apply example_shapes|apply example_batch].
Defined.

Lemma forward_covariate_names_witness :
  (exists key,
      forward (module gauss false vocabulary) tensors_missing 0
        = Raise (KeyError key) /\
      (floats tensors_missing !! key = None \/
       levels tensors_missing !! key = None)) /\
  forward (module gauss false vocabulary) tensors_extra 0
    = forward (module gauss false vocabulary) tensors 0.
Proof.
  split.
  - destruct (forward_covariate_names
                (module gauss false vocabulary) tensors_missing 0)
      as [Hmissing _].
    apply (Hmissing "cell_type"); [|reflexivity].
    apply list_elem_of_singleton. reflexivity.
  - destruct (forward_covariate_names
                (module gauss false vocabulary) tensors 0)
      as [_ Hextra].
    apply (Hextra "donor" [0%Z]).
    intros [=]%list_elem_of_singleton.
Defined.

Lemma loss_gauss_formula_witness :
  loss (module gauss true vocabulary) tensors io go
    = Ok (tmean (gauss_nll_tensor (const 1 2 (num 4)) (const 1 2 (num 4))
                                  (const 1 2 (num 1)))) /\
  loss (module gauss false vocabulary) tensors inference_outputs_one go
    = loss (module gauss true vocabulary) tensors io go.
Proof.
  destruct (loss_gauss_formula (module gauss true vocabulary) tensors io go
              (const 1 2 (num 4)) (const 1 2 (num 4)) (const 1 2 (num 1)))
    as [Hvalue Hsame];
    [reflexivity|reflexivity|reflexivity|reflexivity|exact I|exact I|].
  split; [exact Hvalue|].
  apply (Hsame (module gauss false vocabulary)). reflexivity.
Defined.

Lemma loss_nb_fails_witness :
  exists e, loss (module nb false vocabulary) tensors io go = Raise e.
Proof.
  destruct (loss_nb_fails (Normal := Normal)
              (module nb false vocabulary) eq_refl) as [Hfails _].
  apply Hfails.
Defined.

Lemma adversarial_loss_classification_witness :
  exists adv_loss adv_penalty ces bce,
    adversarial_loss (module gauss false vocabulary) tensors io go
      = Ok (adv_loss, adv_penalty) /\
    adv_loss = fadd bce (total ces).
Proof.
  assert (exists adv_loss adv_penalty,
             adversarial_loss (module gauss false vocabulary) tensors io go
             = Ok (adv_loss, adv_penalty)) as (l & p & Hrun)
    by (eexists _, _; vm_compute; reflexivity).
  destruct (adversarial_loss_classification
              (module gauss false vocabulary) tensors io go) as [Hvalue _].
  destruct (Hvalue l p Hrun)
    as (doses & dp & cp & ces & bce & target & _ & _ & _ & _ & _ & _ & Hl).
  exists l, p, ces, bce. split; [exact Hrun|exact Hl].
Defined.

Lemma adversarial_penalty_sign_witness :
  exists adv_loss adv_penalty,
    adversarial_loss (module gauss false vocabulary) tensors io go
      = Ok (adv_loss, adv_penalty) /\
    ge0 adv_penalty = true.
Proof.
  assert (exists adv_loss adv_penalty,
             adversarial_loss (module gauss false vocabulary) tensors io go
             = Ok (adv_loss, adv_penalty)) as (l & p & Hrun)
    by (eexists _, _; vm_compute; reflexivity).
  exists l, p. split; [exact Hrun|].
  destruct (adversarial_penalty_sign 24 128 (fun _ => S754_zero false)
              _ _ _ _ _ _ Hrun)
    as [(dp & cp & grads & gd & Hdp & Hcp & Hgrads & Hgd & _ & Hge0) _].
  apply Hge0.
  vm_compute in Hdp. injection Hdp as <-.
  vm_compute in Hgd. injection Hgd as <-.
  vm_compute in Hcp. injection Hcp as <-.
  inversion Hgrads as [|kv g vocab' grads' (pred & Hpred & Hg) Hrest];
    subst.
  inversion Hrest; subst.
  vm_compute in Hpred. injection Hpred as <-.
  vm_compute in Hg. injection Hg as <-.
  repeat constructor; intros i j _ _; reflexivity.
Defined.
End Runs.

(** * Further properties of the methods *)

(** ** The input preparations *)

Section Preparations.
Context {F : Type} `{Scalar F}.
Context {St graphed Normal NegativeBinomial : Type}.
Context `{Torch F graphed Normal} `{CE_CONSTANTS}.
Implicit Types self : CPAModule F St graphed NegativeBinomial.
Implicit Types tensors : batch F.

Lemma collect_covars_present vocab tensors d d' :
  collect_covars vocab tensors d = Ok d' ->
  forall covar, covar ∈ vocab.*1 -> is_Some (levels tensors !! covar).
Proof.
  revert d. induction vocab as [|[c m] vocab IH]; intros d Hrun covar;
    simpl in *.
  - by intros ?%elem_of_nil.
  - apply rbind_Ok in Hrun as (v & Hv & Hrun). unfold getitem in Hv.
    destruct (levels tensors !! c) as [v'|] eqn:Hc; [|done].
    intros [->|Hin]%elem_of_cons; [by rewrite Hc|]. by eapply IH.
Qed.

Lemma collect_covars_Raise vocab tensors d e :
  collect_covars vocab tensors d = Raise e ->
  exists key, e = KeyError key /\ key ∈ vocab.*1 /\
              levels tensors !! key = None.
Proof.
  revert d. induction vocab as [|[c m] vocab IH]; intros d; simpl; [done|].
  unfold getitem. destruct (levels tensors !! c) as [v|] eqn:Hc; simpl.
  - intros (key & -> & Hin & Hnone)%IH. exists key.
    split; [done|]. split; [|done]. apply elem_of_cons. by right.
  - intros [= <-]. exists c. split; [done|]. split; [|done].
    apply elem_of_cons. by left.
Qed.

(** [_get_inference_input] returns exactly when the batch has the two
    float entries and the levels of every covariate of the vocabulary;
    the dict it returns holds these two tensors, and its [covars_dict]
    maps the names of the vocabulary, and no other name of the batch, to
    the level vectors of the batch. *)
Theorem _get_inference_input_returns self tensors ii :
  _get_inference_input self tensors = Ok ii <->
  floats tensors !! X_KEY = Some (genes ii) /\
  floats tensors !! PERTURBATIONS = Some (drugs_doses ii) /\
  (forall covar, covar ∈ (covars_to_ncovars self).*1 ->
                 is_Some (levels tensors !! covar)) /\
  (forall covar,
      in_covars_dict ii !! covar =
      if decide (covar ∈ (covars_to_ncovars self).*1)
      then levels tensors !! covar else None).
Proof.
  unfold _get_inference_input, getitem. split.
  - intros Hrun.
    destruct (floats tensors !! X_KEY) as [x|]; [|done].
    destruct (floats tensors !! PERTURBATIONS) as [d|]; [|done].
    simpl in Hrun. apply rbind_Ok in Hrun as (covars & Hcov & [= <-]).
    simpl. repeat split; try done.
    + intros covar. by eapply collect_covars_present.
    + intros covar. rewrite (collect_covars_result _ _ _ _ covar Hcov).
      by destruct (decide _).
  - intros (HX & HP & Hpresent & Hdict). rewrite HX, HP. simpl.
    destruct (collect_covars_returns (covars_to_ncovars self) tensors ∅)
      as [covars Hcov].
    { intros covar n Hin. apply Hpresent, list_elem_of_fmap.
      by exists (covar, n). }
    rewrite Hcov. simpl. destruct ii as [g d c]. simpl in *.
    do 2 f_equal. apply map_eq. intros covar.
    rewrite Hdict, (collect_covars_result _ _ _ _ covar Hcov).
    by destruct (decide _).
Qed.

(** [_get_inference_input] only raises the [KeyError] of a key that it
    reads and the batch lacks. *)
Theorem _get_inference_input_raises self tensors e :
  _get_inference_input self tensors = Raise e ->
  exists key,
    e = KeyError key /\
    ((key = X_KEY /\ floats tensors !! key = None) \/
     (key = PERTURBATIONS /\ floats tensors !! key = None) \/
     (key ∈ (covars_to_ncovars self).*1 /\ levels tensors !! key = None)).
Proof.
  unfold _get_inference_input, getitem.
  destruct (floats tensors !! X_KEY) as [x|] eqn:HX; simpl.
  2: { intros [= <-]. exists X_KEY. auto. }
  destruct (floats tensors !! PERTURBATIONS) as [d|] eqn:HP; simpl.
  2: { intros [= <-]. exists PERTURBATIONS. auto. }
  destruct (collect_covars (covars_to_ncovars self) tensors ∅)
    as [covars|e'] eqn:Hcov; simpl; [done|].
  intros [= <-].
  destruct (collect_covars_Raise _ _ _ _ Hcov) as (key & -> & Hin & Hnone).
  exists key. auto.
Qed.

Lemma one_hot_defined_spec (idx : list Z) n :
  one_hot_defined idx n = true <-> 0 < n /\ levels_below n idx.
Proof.
  split; [|intros [? ?]; by apply one_hot_defined_in_range].
  unfold levels_below. destruct idx as [|i idx]; simpl.
  - intros Hn%bool_decide_eq_true. by split.
  - intros [Hi Hrest]%andb_prop.
    assert (forall j, level_in_range n j = true -> (0 <= j < Z.of_nat n)%Z)
      as Hrange.
    { intros j [?%Z.leb_le ?%Z.ltb_lt]%andb_prop. lia. }
    apply Hrange in Hi. split; [lia|]. constructor; [done|].
    apply Forall_forall. intros j Hj. apply Hrange.
    rewrite forallb_forall in Hrest. by apply Hrest, list_elem_of_In.
Qed.

Lemma encode_covars_Ok vocab tensors :
  encode_covars vocab tensors = Ok () <->
  forall covar n,
    (covar, n) ∈ vocab ->
    exists idx, levels tensors !! covar = Some idx /\
                one_hot_defined idx n = true.
Proof.
  split; [|apply encode_covars_returns].
  induction vocab as [|[c m] vocab IH]; simpl.
  - by intros _ covar n ?%elem_of_nil.
  - unfold getitem. destruct (levels tensors !! c) as [idx|] eqn:Hc;
      simpl; [|done].
    destruct (one_hot_defined idx m) eqn:Hoh; [|done].
    intros Hrest covar n [[= -> ->]|Hin]%elem_of_cons; eauto.
Qed.

Lemma encode_covars_Raise vocab tensors e :
  encode_covars vocab tensors = Raise e ->
  (exists key, e = KeyError key /\ (exists n, (key, n) ∈ vocab) /\
               levels tensors !! key = None) \/
  e = RuntimeError.
Proof.
  induction vocab as [|[c m] vocab IH]; simpl; [done|].
  unfold getitem. destruct (levels tensors !! c) as [idx|] eqn:Hc; simpl.
  - destruct (one_hot_defined idx m); [|intros [= <-]; by right].
    intros [(key & -> & [n Hin] & Hnone)|He]%IH; [left|by right].
    exists key. split; [done|]. split; [|done]. exists n.
    apply elem_of_cons. by right.
  - intros [= <-]. left. exists c. split; [done|]. split; [|done].
    exists m. apply elem_of_cons. by left.
Qed.

(** [_get_generative_input] returns exactly when every covariate of the
    vocabulary has at least one level and has, in the batch, levels that
    are all classes of it; the dict it returns passes [latent] and
    [latent_basal] on and has the key ["library"] under ["nb"] only. *)
Theorem _get_generative_input_returns self tensors
    (io : inference_outputs F Normal) gi :
  _get_generative_input self tensors io = Ok gi <->
  (forall covar n,
      (covar, n) ∈ covars_to_ncovars self ->
      0 < n /\
      exists idx, levels tensors !! covar = Some idx /\ levels_below n idx) /\
  gi = {| gi_library := if decide (loss_ae self = nb)
                        then Some (library io) else None;
          gi_latent := latent io;
          gi_latent_basal := latent_basal io |}.
Proof.
  unfold _get_generative_input. split.
  - intros Hrun. apply rbind_Ok in Hrun as ([] & Henc & [= <-]).
    split; [|done]. intros covar n Hin.
    destruct (proj1 (encode_covars_Ok _ _) Henc covar n Hin)
      as (idx & Hidx & [Hn Hbelow]%one_hot_defined_spec).
    eauto.
  - intros [Hlevels ->].
    rewrite (proj2 (encode_covars_Ok _ _)); [done|].
    intros covar n Hin. destruct (Hlevels covar n Hin) as (Hn & idx & ? & ?).
    exists idx. split; [done|]. by apply one_hot_defined_spec.
Qed.

(** When the batch has the levels of every covariate of the vocabulary
    and one of them is no class of its covariate, [_get_generative_input]
    raises the [RuntimeError] of [one_hot], although the encoding is not
    used. *)
Theorem _get_generative_input_out_of_range self tensors
    (io : inference_outputs F Normal) covar n idx :
  (forall c, c ∈ (covars_to_ncovars self).*1 ->
             is_Some (levels tensors !! c)) ->
  (covar, n) ∈ covars_to_ncovars self ->
  levels tensors !! covar = Some idx ->
  ~ levels_below n idx ->
  _get_generative_input self tensors io = Raise RuntimeError.
Proof.
  intros Hpresent Hin Hidx Hout. unfold _get_generative_input.
  destruct (encode_covars (covars_to_ncovars self) tensors) as [[]|e] eqn:Henc.
  - destruct (proj1 (encode_covars_Ok _ _) Henc covar n Hin)
      as (idx' & Hidx' & [_ Hbelow]%one_hot_defined_spec).
    congruence.
  - simpl. destruct (encode_covars_Raise _ _ _ Henc)
      as [(key & -> & [m Hkey] & Hnone)|He]; [|by subst].
    destruct (Hpresent key) as [v Hv]; [|congruence].
    apply list_elem_of_fmap. by exists (key, m).
Qed.
End Preparations.

(** ** inference, further *)

Section InferenceMore.
Context {F : Type} `{Scalar F}.
Context {St graphed Normal NegativeBinomial : Type}.
Context `{Torch F graphed Normal} `{CE_CONSTANTS}.
Implicit Types self : CPAModule F St graphed NegativeBinomial.
Implicit Types out : inference_outputs F Normal.

Lemma Embedding_Ok_range (w : tensor F) idx e :
  Embedding w idx = Ok e -> levels_below (nrow w) idx.
Proof.
  unfold Embedding, levels_below.
  destruct (forallb _ idx) eqn:Hall; [|done]. intros _.
  apply Forall_forall. intros i Hi. rewrite forallb_forall in Hall.
  specialize (Hall i (proj1 (list_elem_of_In _ _) Hi)).
  apply andb_prop in Hall as [?%Z.leb_le ?%Z.ltb_lt]. lia.
Qed.

Lemma embed_covars_Raise self vocab covars e :
  embed_covars self vocab covars = Raise e ->
  (exists key, e = KeyError key /\ key ∈ vocab.*1 /\ covars !! key = None) \/
  e = IndexError.
Proof.
  induction vocab as [|[c m] vocab IH]; simpl; [done|].
  unfold getitem. destruct (covars !! c) as [idx|] eqn:Hc; simpl.
  2: { intros [= <-]. left. exists c. split; [done|]. split; [|done].
       apply elem_of_cons. by left. }
  destruct (Embedding (covars_embedding self c) idx) as [e0|err] eqn:He0;
    simpl.
  2: { intros [= <-]. right. unfold Embedding in He0.
       by destruct (forallb _ idx); simplify_eq. }
  destruct (embed_covars self vocab covars) as [rest|err] eqn:Hrest;
    simpl; [done|].
  intros [= <-]. destruct (IH eq_refl) as [(key & -> & Hin & Hnone)|He];
    [left|by right].
  exists key. split; [done|]. split; [|done]. apply elem_of_cons. by right.
Qed.

Lemma embed_covars_extra self vocab covars name v :
  name ∉ vocab.*1 ->
  embed_covars self vocab (<[name := v]> covars)
  = embed_covars self vocab covars.
Proof.
  induction vocab as [|[c m] vocab IH]; simpl; [done|].
  intros Hnot. apply not_elem_of_cons in Hnot as [Hne Hnot].
  unfold getitem. rewrite lookup_insert_ne by done.
  destruct (covars !! c); simpl; [|done].
  by rewrite IH.
Qed.

(** With its encoders returning and every covariate of the vocabulary in
    [covars_dict], [inference] raises [IndexError] when a level of a
    covariate is no row of its embedding table. *)
Theorem inference_level_out_of_range self genes doses covars s r s1 lib s2
    covar n idx :
  encode self genes s = Ok (r, s1) ->
  encode_library self genes s1 = Ok (lib, s2) ->
  (forall c, c ∈ (covars_to_ncovars self).*1 -> is_Some (covars !! c)) ->
  (covar, n) ∈ covars_to_ncovars self ->
  covars !! covar = Some idx ->
  ~ levels_below (nrow (covars_embedding self covar)) idx ->
  inference self genes doses covars s = Raise IndexError.
Proof.
  intros Henc Hlib Hpresent Hin Hidx Hout. unfold inference.
  rewrite (M_bind_step _ _ _ _ _ Henc). destruct r as [d lb].
  rewrite (M_bind_step _ _ _ _ _ Hlib).
  destruct (embed_covars self (covars_to_ncovars self) covars)
    as [embs|e] eqn:Hembs.
  - exfalso. apply embed_covars_spec in Hembs.
    apply list_elem_of_lookup in Hin as [k Hk].
    destruct (Forall2_lookup_l _ _ _ _ _ Hembs Hk)
      as (e0 & _ & idx' & Hidx' & He0).
    simpl in *. apply Embedding_Ok_range in He0. congruence.
  - destruct (embed_covars_Raise _ _ _ _ Hembs)
      as [(key & -> & Hkey & Hnone)|He].
    + destruct (Hpresent key Hkey) as [v Hv]. congruence.
    + by subst.
Qed.

(** [inference] returns only if every covariate of the vocabulary is in
    [covars_dict], its levels are rows of its embedding table, and all
    covariates have the same number of levels; it hands [covars_dict]
    back as it got it. *)
Theorem inference_requires self genes doses covars s out s' :
  inference self genes doses covars s = Ok (out, s') ->
  (exists B,
      forall covar n,
        (covar, n) ∈ covars_to_ncovars self ->
        exists idx,
          covars !! covar = Some idx /\ length idx = B /\
          levels_below (nrow (covars_embedding self covar)) idx) /\
  covars_dict out = covars.
Proof.
  intros Hrun.
  destruct (inference_Ok _ _ _ _ _ _ _ Hrun)
    as (s1 & s2 & embs & drug & partial & _ & _ & Hembs & Hcat & _ & _ & _
        & Hdict).
  split; [|done].
  destruct (cat0_Ok _ _ Hcat) as (_ & Hne & Hsame).
  destruct embs as [|e0 embs']; [done|]. exists (nrow e0).
  intros covar n Hin. apply embed_covars_spec in Hembs.
  apply list_elem_of_lookup in Hin as [k Hk].
  destruct (Forall2_lookup_l _ _ _ _ _ Hembs Hk)
    as (e & He & idx & Hidx & Hemb).
  simpl in *. exists idx. split; [done|].
  split; [|by eapply Embedding_Ok_range].
  destruct (Embedding_shape _ _ _ Hemb) as [<- _].
  assert (e ∈ e0 :: embs') as Hmem by (by eapply list_elem_of_lookup_2).
  apply Hsame, same_shape_spec in Hmem as [Hr _]. simpl in Hr. done.
Qed.

(** A name of [covars_dict] that the vocabulary does not have is not
    read: [inference] runs as without it and only hands it back in the
    [covars_dict] of its outputs. *)
Theorem inference_extra_name self genes doses covars name v s :
  name ∉ (covars_to_ncovars self).*1 ->
  inference self genes doses (<[name := v]> covars) s =
  match inference self genes doses covars s with
  | Ok (out, s') => Ok (with_covars_dict out (<[name := v]> covars), s')
  | Raise e => Raise e
  end.
Proof.
  intros Hnot. unfold inference. rewrite embed_covars_extra by done.
  unfold mbind, M_bind, M_bind_def, lift, mret, M_ret.
  destruct (encode self genes s) as [[[d lb] s1]|e]; [|done].
  destruct (encode_library self genes s1) as [[lib s2]|e]; [|done].
  destruct (embed_covars self (covars_to_ncovars self) covars)
    as [embs|e]; [|done].
  destruct (cat0 embs) as [stack|e]; [|done].
  destruct (drug_network self doses s2) as [[drug s3]|e]; [|done].
  destruct (tadd lb (sum0 stack)) as [partial|e]; [|done].
  destruct (tadd partial drug) as [lat|e]; done.
Qed.

(** With a covariate in the vocabulary and sub-modules of the shapes
    [__init__] gives them, a call of [inference] that returns on genes,
    doses and levels of [B] cells returns a latent and a basal latent
    that are both [B] by [n_latent]. *)
Theorem inference_shapes self genes doses covars s out s' :
  shapes_as_constructed self ->
  inference self genes doses covars s = Ok (out, s') ->
  nrow doses = nrow genes ->
  (forall covar n idx,
      (covar, n) ∈ covars_to_ncovars self ->
      covars !! covar = Some idx -> length idx = nrow genes) ->
  (nrow (latent out) = nrow genes /\ ncol (latent out) = n_latent self) /\
  (nrow (latent_basal out) = nrow genes /\
   ncol (latent_basal out) = n_latent self).
Proof.
  intros Hshape Hrun Hdoses Hlevels.
  destruct (inference_Ok _ _ _ _ _ _ _ Hrun)
    as (s1 & s2 & embs & drug & partial & Henc & _ & Hemb & Hcat & Hdrug
        & Hp & Hl & _).
  destruct (encoder_shape _ Hshape _ _ _ _ _ Henc) as [Br Bk].
  destruct (drug_network_shape _ Hshape _ _ _ _ Hdrug) as [Dr Dk].
  split; [|done].
  assert (nrow (sum0 embs) = nrow genes /\
          ncol (sum0 embs) = n_latent self) as [Cr Ck].
  { apply embed_covars_spec in Hemb.
    inversion Hemb as [|[covar n] e0 vocab embs' (idx & Hidx & He0) _ Hv He];
      subst; [by destruct (cat0_Ok _ _ Hcat) as (_ & ? & _)|].
    assert ((covar, n) ∈ covars_to_ncovars self) as Hin.
    { rewrite <- Hv. apply elem_of_cons. by left. }
    simpl in *. destruct (Embedding_shape _ _ _ He0) as [-> ->].
    split; [by eapply Hlevels|].
    by destruct (embedding_shape _ Hshape _ _ Hin). }
  destruct (broadcast2_same_shape _ _ _ _ Hp) as (Pr & Pk & _);
    [congruence..|]. simpl in Pr, Pk.
  destruct (broadcast2_same_shape _ _ _ _ Hl) as (Lr & Lk & _);
    [congruence..|]. simpl in Lr, Lk.
  split; congruence.
Qed.

(** Doses for another number of cells than the genes, neither of them
    one, are not broadcast: the sum of the latent raises
    [RuntimeError]. *)
Theorem inference_dose_rows_mismatch self genes doses covars s d lb s1 lib
    s2 drug s3 :
  shapes_as_constructed self ->
  covars_to_ncovars self <> [] ->
  levels_of self (nrow genes) covars ->
  encode self genes s = Ok ((d, lb), s1) ->
  encode_library self genes s1 = Ok (lib, s2) ->
  drug_network self doses s2 = Ok (drug, s3) ->
  nrow doses <> nrow genes -> nrow doses <> 1 -> nrow genes <> 1 ->
  inference self genes doses covars s = Raise RuntimeError.
Proof.
  intros Hshape Hne Hlevels Henc Hlib Hdrug Hrows Hd1 Hg1.
  destruct (encoder_shape _ Hshape _ _ _ _ _ Henc) as [Br Bk].
  destruct (drug_network_shape _ Hshape _ _ _ _ Hdrug) as [Dr Dk].
  destruct (embed_covars_returns self (covars_to_ncovars self) covars
              (nrow genes) (n_latent self)) as (embs & Hembs & Hlen & Hsh).
  { intros covar n Hin.
    destruct (embedding_shape _ Hshape _ _ Hin) as [? ?].
    destruct (Hlevels _ _ Hin) as (idx & ? & ? & ?). eauto 10. }
  destruct (cat0_returns embs (nrow genes) (n_latent self))
    as (Hcat & Cr & Ck); [|done|].
  { intros ->. destruct (covars_to_ncovars self); done. }
  destruct (broadcast2_defined fadd lb (sum0 embs)) as [partial Hp];
    [congruence..|].
  destruct (broadcast2_same_shape _ _ _ _ Hp) as (Pr & Pk & _);
    [congruence..|]. simpl in Pr, Pk.
  assert (tadd partial drug = Raise RuntimeError) as Hl.
  { unfold tadd, broadcast2, bdim.
    rewrite decide_False by congruence.
    rewrite decide_False by congruence.
    by rewrite decide_False by congruence. }
  unfold inference.
  rewrite (M_bind_step _ _ _ _ _ Henc). simpl.
  rewrite (M_bind_step _ _ _ _ _ Hlib).
  rewrite (M_bind_step _ _ _ _ _ (lift_run _ _ _ Hembs)).
  rewrite (M_bind_step _ _ _ _ _ (lift_run _ _ _ Hcat)).
  rewrite (M_bind_step _ _ _ _ _ Hdrug).
  rewrite (M_bind_step _ _ _ _ _ (lift_run _ _ _ Hp)).
  apply M_bind_Raise. by rewrite Hl.
Qed.
End InferenceMore.

(** ** generative, forward and get_expression, further *)

Section GenerativeMore.
Context {F : Type} `{Scalar F}.
Context {St graphed Normal NegativeBinomial : Type}.
Context `{Torch F graphed Normal} `{CE_CONSTANTS}.
Implicit Types self : CPAModule F St graphed NegativeBinomial.
Implicit Types tensors : batch F.
Implicit Types io : inference_outputs F Normal.
Implicit Types go : generative_outputs F graphed NegativeBinomial.

(** The dict the loop of [generative] builds: the keys it adds are the
    names of the vocabulary, and each entry it adds is an output of that
    covariate's classifier on the basal latent. *)
Lemma classify_covars_spec self vocab lb acc s cp s' :
  classify_covars self vocab lb acc s = Ok (cp, s') ->
  dom cp = dom acc ∪ list_to_set vocab.*1 /\
  forall covar pred,
    cp !! covar = Some pred ->
    ((covar ∉ vocab.*1) /\ acc !! covar = Some pred) \/
    ((covar ∈ vocab.*1) /\
     exists sa sb, covars_classifiers self covar lb sa = Ok (pred, sb)).
Proof.
  revert acc s. induction vocab as [|[c m] vocab IH]; intros acc s Hrun;
    simpl in Hrun.
  - apply mret_Ok in Hrun as [-> ->]. split; [set_solver|].
    intros covar pred Hpred. left. split; [apply not_elem_of_nil|done].
  - apply M_bind_Ok in Hrun as (p & s1 & Hp & Hrun).
    destruct (IH _ _ Hrun) as [Hdom Hentries]. split.
    + rewrite Hdom, dom_insert_L. set_solver.
    + intros covar pred Hpred.
      destruct (Hentries covar pred Hpred) as [[Hnot Hacc]|[Hin Hcls]].
      * destruct (decide (c = covar)) as [->|Hne].
        -- rewrite lookup_insert_eq in Hacc. simplify_eq. right.
           split; [apply elem_of_cons; by left|eauto].
        -- rewrite lookup_insert_ne in Hacc by done. left.
           split; [|done]. by intros [?|?]%elem_of_cons.
      * right. split; [apply elem_of_cons; by right|done].
Qed.

(** The dict [generative] returns has the keys ["drugs_pred"] and
    ["covars_pred"], with ["means"] and ["variances"] and no ["dist_px"]
    under ["gauss"], with ["dist_px"] and neither ["means"] nor
    ["variances"] under ["nb"]. *)
Theorem generative_keys self z lb s go s' :
  generative self z lb s = Ok (go, s') ->
  is_Some (drugs_pred go) /\ is_Some (covars_pred go) /\
  (is_Some (means go) <-> loss_ae self = gauss) /\
  (is_Some (variances go) <-> loss_ae self = gauss) /\
  (is_Some (dist_px go) <-> loss_ae self = nb).
Proof.
  intros (dp & s1 & cp & s2 & _ & _ & Hdec & Hdp & Hcp)%generative_Ok.
  rewrite Hdp, Hcp. split; [done|]. split; [done|].
  apply decode_Ok in Hdec as (_ & _ & Hkeys).
  destruct (loss_ae self).
  - destruct Hkeys as (Hm & Hv & ->).
    repeat split; try done; by intros [? ?].
  - destruct Hkeys as (-> & -> & Hd).
    repeat split; try done; by intros [? ?].
Qed.

(** The ["covars_pred"] of [generative] has the names of the vocabulary
    as its keys, no other, and each entry is an output of that
    covariate's classifier on the basal latent; ["drugs_pred"] is the
    output of the drug classifier on the basal latent. *)
Theorem generative_predictions self z lb s go s' :
  generative self z lb s = Ok (go, s') ->
  exists dp cp s1,
    drugs_pred go = Some dp /\ covars_pred go = Some cp /\
    drugs_classifier self lb s = Ok (dp, s1) /\
    dom cp = list_to_set (covars_to_ncovars self).*1 /\
    forall covar pred,
      cp !! covar = Some pred ->
      exists sa sb, covars_classifiers self covar lb sa = Ok (pred, sb).
Proof.
  intros (dp & s1 & cp & s2 & Hdrug & Hcls & _ & Hdp & Hcp)%generative_Ok.
  exists dp, cp, s1. repeat split; try done.
  - destruct (classify_covars_spec _ _ _ _ _ _ _ Hcls) as [-> _].
    rewrite dom_empty_L. set_solver.
  - intros covar pred Hpred.
    destruct (classify_covars_spec _ _ _ _ _ _ _ Hcls) as [_ Hentries].
    destruct (Hentries covar pred Hpred) as [[_ Hempty]|[_ Hc]]; [|done].
    by rewrite lookup_empty in Hempty.
Qed.

(** Under ["nb"] the forward pass stops before [generative]: once the
    input preparations and [inference] have returned, the ["library"]
    entry of the prepared inputs, a keyword [generative] does not take,
    makes the call a [TypeError]. *)
Theorem forward_nb_TypeError self tensors s ii io s1 gi :
  loss_ae self = nb ->
  _get_inference_input self tensors = Ok ii ->
  inference self (genes ii) (drugs_doses ii) (in_covars_dict ii) s
    = Ok (io, s1) ->
  _get_generative_input self tensors io = Ok gi ->
  forward self tensors s = Raise TypeError.
Proof.
  intros Hnb Hii Hinf Hgi. unfold forward.
  rewrite (M_bind_step _ _ _ _ _ (lift_run _ _ _ Hii)).
  rewrite (M_bind_step _ _ _ _ _ Hinf).
  rewrite (M_bind_step _ _ _ _ _ (lift_run _ _ _ Hgi)).
  unfold _get_generative_input in Hgi.
  apply rbind_Ok in Hgi as ([] & _ & [= <-]). simpl.
  by rewrite decide_True by done.
Qed.

(** [get_expression] returns exactly when the likelihood is ["gauss"]
    and the forward pass returns: the keys ["means"] and ["variances"]
    it then reads are in the generative outputs, because the Gaussian
    branch of [generative] puts them there; and what it returns is
    these two entries, in the state the forward pass left. *)
Theorem get_expression_returns self tensors s :
  ((exists r s', get_expression self tensors s = Ok (r, s')) <->
   loss_ae self = gauss /\
   exists r s', forward self tensors s = Ok (r, s')) /\
  (forall mus stds s',
      get_expression self tensors s = Ok ((mus, stds), s') ->
      exists io go,
        forward self tensors s = Ok ((io, go), s') /\
        means go = Some mus /\ variances go = Some stds).
Proof.
  assert (forall mus stds s',
             get_expression self tensors s = Ok ((mus, stds), s') ->
             loss_ae self = gauss /\
             exists io go,
               forward self tensors s = Ok ((io, go), s') /\
               means go = Some mus /\ variances go = Some stds) as Honly.
  { intros mus stds s' Hrun. unfold get_expression in Hrun.
    apply M_bind_Ok in Hrun as ([io go] & s1 & Hfwd & Hrun).
    destruct (decide (loss_ae self = gauss)) as [Hgauss|Hnot]; [|done].
    split; [done|]. exists io, go. unfold getkey in Hrun.
    destruct (means go) as [m|]; [|done].
    destruct (variances go) as [v|]; [|done].
    apply mret_Ok in Hrun as [[= -> ->] ->]. done. }
  split; [split|].
  - intros ([mus stds] & s' & Hrun).
    destruct (Honly _ _ _ Hrun) as (Hgauss & io & go & Hfwd & _).
    split; [done|]. by exists (io, go), s'.
  - intros (Hgauss & [io go] & s' & Hfwd).
    destruct (get_expression_gauss _ _ _ _ _ _ Hgauss Hfwd)
      as (mus & stds & Hget & _).
    by exists (mus, stds), s'.
  - intros mus stds s' Hrun. by destruct (Honly _ _ _ Hrun).
Qed.

Lemma Forall2_exists {A B} (R : A -> B -> Prop) (l : list A) :
  (forall a, a ∈ l -> exists b, R a b) -> exists k, Forall2 R l k.
Proof.
  induction l as [|a l IH]; intros Hall.
  - exists []. constructor.
  - destruct (Hall a) as [b Hb]; [apply elem_of_cons; by left|].
    destruct IH as [k Hk].
    { intros a' Ha'. apply Hall, elem_of_cons. by right. }
    exists (b :: k). by constructor.
Qed.

(** On the outputs of [generative], whatever the likelihood,
    [adversarial_loss] finds every key it reads, and it returns when the
    batch has its doses, [covars_dict] has the covariates of the
    vocabulary, and the torch losses and gradients of this call are
    defined: those of the drug prediction on the doses of the batch,
    and those of each covariate prediction on the levels of its
    covariate. *)
Theorem adversarial_loss_after_generative self tensors io z lb s go s'
    doses :
  generative self z lb s = Ok (go, s') ->
  floats tensors !! PERTURBATIONS = Some doses ->
  (forall covar, covar ∈ (covars_to_ncovars self).*1 ->
                 is_Some (covars_dict io !! covar)) ->
  (forall dp,
      drugs_pred go = Some dp ->
      (exists bce,
          BCEWithLogitsLoss (data dp) (tgt0_float doses) = Ok bce) /\
      (exists g, autograd_grad_sum dp (latent_basal io) = Ok g)) ->
  (forall cp covar pred idx,
      covars_pred go = Some cp ->
      covar ∈ (covars_to_ncovars self).*1 ->
      cp !! covar = Some pred -> covars_dict io !! covar = Some idx ->
      (exists ce,
          CrossEntropyLoss (data pred) (squeeze_last idx) = Ok ce) /\
      (exists g, autograd_grad_sum pred (latent_basal io) = Ok g)) ->
  exists adv_loss adv_penalty,
    adversarial_loss self tensors io go = Ok (adv_loss, adv_penalty).
Proof.
  intros (dp & s1 & cp & s2 & _ & Hcls & _ & Hdp & Hcp)%generative_Ok
         HP Hcovars Hdrug Hcov.
  destruct (classify_covars_spec _ _ _ _ _ _ _ Hcls) as [Hdom _].
  assert (forall kv, kv ∈ covars_to_ncovars self ->
                     (kv.1 ∈ (covars_to_ncovars self).*1) /\
                     is_Some (cp !! kv.1)) as Hcp_keys.
  { intros kv Hkv.
    assert (kv.1 ∈ (covars_to_ncovars self).*1) as Hin
      by (apply list_elem_of_fmap; by exists kv).
    split; [done|]. apply elem_of_dom. rewrite Hdom, dom_empty_L.
    by apply elem_of_union_r, elem_of_list_to_set. }
  destruct (Forall2_exists (covariate_cross_entropy cp (covars_dict io))
              (covars_to_ncovars self)) as [ces Hces].
  { intros kv Hkv. destruct (Hcp_keys kv Hkv) as [Hin [pred Hpred]].
    destruct (Hcovars kv.1 Hin) as [idx Hidx].
    destruct (Hcov cp kv.1 pred idx Hcp Hin Hpred Hidx) as [[ce Hc] _].
    exists ce, pred, idx. done. }
  destruct (Forall2_exists (covariate_gradient cp (latent_basal io))
              (covars_to_ncovars self)) as [grads Hgrads].
  { intros kv Hkv. destruct (Hcp_keys kv Hkv) as [Hin [pred Hpred]].
    destruct (Hcovars kv.1 Hin) as [idx Hidx].
    destruct (Hcov cp kv.1 pred idx Hcp Hin Hpred Hidx) as [_ [g Hg]].
    exists g, pred. done. }
  destruct (Hdrug dp Hdp) as [[bce Hb] [gd Hgd]].
  eexists _, _. by eapply adversarial_loss_returns.
Qed.
End GenerativeMore.

(** ** loss, further *)

Section LossMore.
Context {F : Type} `{Scalar F}.
Context {St graphed Normal NegativeBinomial : Type}.
Context `{Torch F graphed Normal} `{CE_CONSTANTS}.
Implicit Types self : CPAModule F St graphed NegativeBinomial.
Implicit Types tensors : batch F.
Implicit Types io : inference_outputs F Normal.
Implicit Types go : generative_outputs F graphed NegativeBinomial.

Lemma bdim_absorb a b c : bdim a b = Some c -> bdim b c = Some c.
Proof.
  unfold bdim. intros Hc.
  repeat (case_decide; simplify_eq); congruence.
Qed.

Lemma broadcast2_Ok op (a b c : tensor F) :
  broadcast2 op a b = Ok c ->
  bdim (nrow a) (nrow b) = Some (nrow c) /\
  bdim (ncol a) (ncol b) = Some (ncol c).
Proof.
  unfold broadcast2.
  destruct (bdim (nrow a) (nrow b)), (bdim (ncol a) (ncol b));
    intros [= <-]; done.
Qed.

Lemma broadcast2_Some op (a b : tensor F) r c :
  bdim (nrow a) (nrow b) = Some r -> bdim (ncol a) (ncol b) = Some c ->
  exists t, broadcast2 op a b = Ok t /\ nrow t = r /\ ncol t = c.
Proof. unfold broadcast2. intros -> ->. eauto. Qed.

Lemma broadcast2_rows_mismatch op (a b : tensor F) :
  nrow a <> nrow b -> nrow a <> 1 -> nrow b <> 1 ->
  broadcast2 op a b = Raise RuntimeError.
Proof.
  intros Hne Ha Hb. unfold broadcast2, bdim.
  by rewrite !decide_False by done.
Qed.

(** [loss] returns exactly under ["gauss"], on a batch with its
    expression matrix and generative outputs with ["means"] and
    ["variances"], when the shapes broadcast: the expression matrix
    with the means, and their common shape with the variances. *)
Theorem loss_returns_iff self tensors io go :
  (exists l, loss self tensors io go = Ok l) <->
  loss_ae self = gauss /\
  exists x m v r c,
    floats tensors !! X_KEY = Some x /\
    means go = Some m /\ variances go = Some v /\
    bdim (nrow x) (nrow m) = Some r /\ bdim (ncol x) (ncol m) = Some c /\
    is_Some (bdim r (nrow v)) /\ is_Some (bdim c (ncol v)).
Proof.
  unfold loss, getitem, getkey. split.
  - intros [l Hrun].
    destruct (floats tensors !! X_KEY) as [x|]; [|done].
    destruct (means go) as [m|]; [|done].
    destruct (variances go) as [v|]; [|done]. simpl in Hrun.
    destruct (decide (loss_ae self = gauss)) as [Hgauss|Hnot]; [|done].
    split; [done|].
    apply rbind_Ok in Hrun as (rl & Hrun & _).
    apply rbind_Ok in Hrun as (d & Hd & Hrun).
    apply rbind_Ok in Hrun as (t2 & Ht2 & _).
    apply broadcast2_Ok in Hd as [Hr Hc].
    apply broadcast2_Ok in Ht2 as [Hr2 Hc2]. simpl in *.
    exists x, m, v, (nrow d), (ncol d). eauto 10.
  - intros (Hgauss & x & m & v & r & c & -> & -> & -> & Hr & Hc
            & [r2 Hr2] & [c2 Hc2]). simpl.
    rewrite decide_True by done.
    destruct (broadcast2_Some fsub x m r c Hr Hc) as (d & Hd & <- & <-).
    unfold tsub. rewrite Hd. simpl.
    destruct (broadcast2_Some fdiv (tpow2 d) (tmul2 v) r2 c2 Hr2 Hc2)
      as (t2 & Ht2 & <- & <-).
    unfold tdiv. rewrite Ht2. simpl.
    destruct (broadcast2_Some fadd (tdiv2 (tlog v)) t2 (nrow t2) (ncol t2))
      as (t & Ht & _); [by eapply bdim_absorb..|].
    unfold tadd. rewrite Ht. simpl. eauto.
Qed.

(** Generative outputs for another number of cells than the batch has,
    neither of them one cell, make [loss] raise the [RuntimeError] of
    the subtraction. *)
Theorem loss_rows_mismatch self tensors io go x m :
  loss_ae self = gauss ->
  floats tensors !! X_KEY = Some x ->
  means go = Some m -> is_Some (variances go) ->
  nrow x <> nrow m -> nrow x <> 1 -> nrow m <> 1 ->
  loss self tensors io go = Raise RuntimeError.
Proof.
  intros Hgauss HX Hm [v Hv] Hne Hx1 Hm1.
  unfold loss, getitem. rewrite HX, Hm, Hv. simpl.
  rewrite decide_True by done.
  unfold tsub. by rewrite broadcast2_rows_mismatch.
Qed.

(** [loss] on the outputs of the forward pass: under ["gauss"], for a
    batch of [B] cells whose expression matrix has [n_genes] columns
    and sub-modules of the shapes [__init__] gives them, it returns the
    mean over the [B] by [n_genes] entries of the Gaussian negative
    log-likelihood of the expression under the decoded means and
    variances. *)
Theorem loss_after_forward self tensors s io go s' B x :
  loss_ae self = gauss ->
  shapes_as_constructed self -> batch_of self B tensors ->
  floats tensors !! X_KEY = Some x -> ncol x = n_genes self ->
  forward self tensors s = Ok ((io, go), s') ->
  exists m v,
    means go = Some m /\ variances go = Some v /\
    loss self tensors io go = Ok (tmean (gauss_nll_tensor x m v)) /\
    numel (gauss_nll_tensor x m v) = B * n_genes self.
Proof.
  intros Hgauss Hshape Hbatch HX Hcol Hrun.
  destruct (get_expression_gauss _ _ _ _ _ _ Hgauss Hrun)
    as (m & v & _ & Hm & Hv & Hshapes).
  destruct (Hshapes B Hshape Hbatch) as [[Mr Mc] [Vr Vc]].
  destruct Hbatch as [[x' [HX' Hx]] _ _]. simplify_eq.
  exists m, v. split; [done|]. split; [done|]. split.
  - apply loss_gauss_Ok; try done; apply same_shape_spec; split; congruence.
  - unfold numel. simpl. by rewrite Hcol.
Qed.
End LossMore.

(** ** The losses in IEEE arithmetic, further *)

Section LossIEEE.
Variables prec emax : Z.
Variable log_kernel : spec_float -> spec_float.
Context {St graphed Normal NegativeBinomial : Type}.
Context `{Torch spec_float graphed Normal} `{CE_CONSTANTS}.
Implicit Types self : CPAModule spec_float St graphed NegativeBinomial.
Implicit Types tensors : batch spec_float.
Implicit Types io : inference_outputs spec_float Normal.
Implicit Types go : generative_outputs spec_float graphed NegativeBinomial.

Local Abbreviation K := (IEEE prec emax log_kernel).

Lemma nan_absorbing : absorbing prec emax (fun x => is_nan x = true).
Proof.
  split; intros a b Ha.
  - by destruct a.
  - by destruct a, b.
  - by destruct a.
Qed.

Lemma not_finite_absorbing :
  absorbing prec emax (fun x => is_finite x = false).
Proof.
  split; intros a b Ha.
  - destruct a as [|sa| |], b as [|sb| |]; try done.
    simpl. by destruct sa, sb.
  - destruct a as [|sa| |], b as [|sb| |]; try done.
    simpl. by destruct sa, sb.
  - by destruct a as [|sa| |], b as [|sb| |].
Qed.

Lemma foldl_keeps {A} (P : spec_float -> Prop)
    (f : spec_float -> A -> spec_float) (l : list A) acc :
  (forall a x, P a -> P (f a x)) -> P acc -> P (foldl f acc l).
Proof.
  revert acc. induction l as [|x l IH]; intros acc Hf Hacc; simpl; auto.
Qed.

Lemma foldl_hits {A} (P : spec_float -> Prop)
    (f : spec_float -> A -> spec_float) (l : list A) acc x :
  (forall a y, P a -> P (f a y)) -> x ∈ l -> (forall a, P (f a x)) ->
  P (foldl f acc l).
Proof.
  revert acc. induction l as [|y l IH]; intros acc Hf Hin Hx; simpl.
  - by apply elem_of_nil in Hin.
  - apply elem_of_cons in Hin as [<-|Hin].
    + apply foldl_keeps; auto.
    + by apply IH.
Qed.

(** One entry with an absorbing property gives it to the mean. *)
Lemma tmean_hits (P : spec_float -> Prop) (t : tensor spec_float) i j :
  absorbing prec emax P -> i < nrow t -> j < ncol t -> P (entry t i j) ->
  P (tmean (H := K) t).
Proof.
  intros [Hl Hr Hd] Hi Hj Hp. unfold tmean. simpl. apply Hd.
  unfold tsum. apply foldl_hits with (x := i).
  - intros a y Ha. unfold row_sum. apply foldl_keeps; [|done].
    intros a' j' Ha'. by apply Hl.
  - apply elem_of_seq. lia.
  - intros a. unfold row_sum. apply foldl_hits with (x := j).
    + intros a' j' Ha'. by apply Hl.
    + apply elem_of_seq. lia.
    + intros a'. by apply Hr.
Qed.

Lemma total_hits (P : spec_float -> Prop) (xs : list spec_float) x :
  absorbing prec emax P -> x ∈ xs -> P x -> P (total (H := K) xs).
Proof.
  intros [Hl Hr _] Hin Hp. unfold total. apply foldl_hits with (x := x).
  - intros a y Ha. by apply Hl.
  - done.
  - intros a. by apply Hr.
Qed.

(** The mean of a tensor without entries is 0/0. *)
Lemma tmean_empty (t : tensor spec_float) :
  numel t = 0 -> tmean (H := K) t = S754_nan.
Proof.
  intros Hn. unfold tmean. rewrite Hn.
  assert (tsum (H := K) t = S754_zero false) as ->; [|done].
  unfold numel in Hn. unfold tsum.
  apply Nat.eq_mul_0 in Hn as [->| Hc]; [done|].
  generalize (seq 0 (nrow t)).
  induction l as [|i l IH]; simpl; [done|].
  unfold row_sum at 2. rewrite Hc. simpl. exact IH.
Qed.

(** The Gaussian negative log-likelihood of an entry with a NaN is a
    NaN, and at a variance of zero it is an infinity or a NaN. *)
Lemma gauss_nll_nan (x m v : spec_float) :
  is_nan x = true \/ is_nan m = true \/ is_nan v = true ->
  is_nan (gauss_nll (H := K) x m v) = true.
Proof.
  intros Hnan. unfold gauss_nll. simpl.
  apply (absorbing_add_r _ _ _ nan_absorbing).
  destruct Hnan as [Hx|[Hm|Hv]].
  - by destruct x.
  - by destruct m, x.
  - destruct v; try done.
    by destruct (SFmul prec emax (SFsub prec emax x m) (SFsub prec emax x m)).
Qed.

Lemma gauss_nll_zero_variance (x m v : spec_float) :
  is_zero v = true ->
  is_finite (gauss_nll (H := K) x m v) = false.
Proof.
  intros Hv. unfold gauss_nll. simpl.
  apply (absorbing_add_r _ _ _ not_finite_absorbing).
  destruct v as [sv| | |]; try done.
  destruct (SFmul prec emax (SFsub prec emax x m) (SFsub prec emax x m))
    as [| | |];
    destruct (IEEE_of_nat prec emax 2) as [| | |]; done.
Qed.

(** On a batch without cells, or without genes, the loss is the mean of
    an empty tensor: a NaN. *)
Theorem loss_empty_batch_nan self tensors io go x m v :
  loss_ae self = gauss ->
  floats tensors !! X_KEY = Some x ->
  means go = Some m -> variances go = Some v ->
  same_shape x m -> same_shape x v ->
  numel x = 0 ->
  loss (H := K) self tensors io go = Ok S754_nan.
Proof.
  intros Hgauss HX Hm Hv Hxm Hxv Hn.
  rewrite (loss_gauss_Ok (H := K) self tensors io go x m v) by done.
  f_equal. by apply tmean_empty.
Qed.

(** One variance of zero makes the loss an infinity or a NaN, whatever
    the expression, the means, the other variances and the [log]
    kernel. *)
Theorem loss_zero_variance_not_finite self tensors io go x m v :
  loss_ae self = gauss ->
  floats tensors !! X_KEY = Some x ->
  means go = Some m -> variances go = Some v ->
  same_shape x m -> same_shape x v ->
  has_zero v ->
  exists l,
    loss (H := K) self tensors io go = Ok l /\ is_finite l = false.
Proof.
  intros Hgauss HX Hm Hv Hxm Hxv (i & j & Hi & Hj & Hz).
  rewrite (loss_gauss_Ok (H := K) self tensors io go x m v) by done.
  eexists. split; [done|].
  apply same_shape_spec in Hxv as [Hr Hc].
  apply (tmean_hits (fun x => is_finite x = false) _ i j
                    not_finite_absorbing); simpl; [lia..|].
  by apply gauss_nll_zero_variance.
Qed.

(** One NaN in the expression matrix, the means or the variances makes
    the loss a NaN. *)
Theorem loss_nan_input self tensors io go x m v :
  loss_ae self = gauss ->
  floats tensors !! X_KEY = Some x ->
  means go = Some m -> variances go = Some v ->
  same_shape x m -> same_shape x v ->
  has_nan x \/ has_nan m \/ has_nan v ->
  exists l,
    loss (H := K) self tensors io go = Ok l /\ is_nan l = true.
Proof.
  intros Hgauss HX Hm Hv Hxm Hxv Hnan.
  rewrite (loss_gauss_Ok (H := K) self tensors io go x m v) by done.
  eexists. split; [done|].
  apply same_shape_spec in Hxm as [Hr Hc].
  apply same_shape_spec in Hxv as [Hr' Hc'].
  assert (exists i j, i < nrow x /\ j < ncol x /\
            (is_nan (entry x i j) = true \/ is_nan (entry m i j) = true \/
             is_nan (entry v i j) = true)) as (i & j & Hi & Hj & Hij).
  { destruct Hnan as [(i & j & Hi & Hj & Hp)|[(i & j & Hi & Hj & Hp)
                     |(i & j & Hi & Hj & Hp)]];
      exists i, j; (split; [lia|]); (split; [lia|]); auto. }
  apply (tmean_hits (fun x => is_nan x = true) _ i j nan_absorbing);
    simpl; [lia..|].
  by apply gauss_nll_nan.
Qed.

(** The mean of the squares of a gradient without entries, or with a
    NaN, is a NaN. *)
Lemma mean_square_nan (g : tensor spec_float) :
  numel g = 0 \/ has_nan g -> is_nan (mean_square (H := K) g) = true.
Proof.
  intros [Hn|(i & j & Hi & Hj & Hp)]; unfold mean_square.
  - by rewrite tmean_empty.
  - apply (tmean_hits (fun x => is_nan x = true) _ i j nan_absorbing);
      simpl; [lia..|].
    by destruct (entry g i j).
Qed.

(** The converse of the sign of the penalty: one gradient that
    [adversarial_loss] takes, of the drug classifier or of a covariate
    classifier of the vocabulary, that has no entries or holds a NaN
    makes the penalty a NaN. *)
Theorem adversarial_penalty_nan self tensors io go adv_loss adv_penalty
    pred g :
  adversarial_loss (H := K) self tensors io go
    = Ok (adv_loss, adv_penalty) ->
  drugs_pred go = Some pred \/
  (exists cp covar,
      covars_pred go = Some cp /\
      covar ∈ (covars_to_ncovars self).*1 /\ cp !! covar = Some pred) ->
  autograd_grad_sum pred (latent_basal io) = Ok g ->
  numel g = 0 \/ has_nan g ->
  is_nan adv_penalty = true.
Proof.
  intros (doses & dp & cp & ces & bce & grads & gd & _ & Hdp & Hcp & _ & _
          & _ & Hgrads & Hgd & ->)%adversarial_loss_Ok Hpred Hg Hbad.
  simpl. destruct Hpred as [Hpred|(cp' & covar & Hcp' & Hin & Hpred)].
  - assert (gd = g) as -> by congruence.
    apply (absorbing_add_r _ _ _ nan_absorbing).
    by apply mean_square_nan.
  - assert (cp' = cp) as -> by congruence.
    apply (absorbing_add_l _ _ _ nan_absorbing).
    apply list_elem_of_fmap in Hin as (kv & -> & Hkv).
    apply list_elem_of_lookup in Hkv as [k Hk].
    destruct (Forall2_lookup_l _ _ _ _ _ Hgrads Hk)
      as (g' & Hg' & pred' & Hpred' & Hgrad').
    assert (pred' = pred) as -> by congruence.
    assert (g' = g) as -> by congruence.
    apply (total_hits (fun x => is_nan x = true) _ (mean_square (H := K) g)
                      nan_absorbing).
    + apply list_elem_of_fmap. exists g. split; [done|].
      by eapply list_elem_of_lookup_2.
    + by apply mean_square_nan.
Qed.
End LossIEEE.

(** ** Runs of the further properties *)

Section MoreRuns.
Import Example Example2.

Lemma _get_inference_input_raises_witness :
  exists key,
    KeyError "cell_type" = KeyError key /\
    ((key = X_KEY /\ floats tensors_missing !! key = None) \/
     (key = PERTURBATIONS /\ floats tensors_missing !! key = None) \/
     (key ∈ vocabulary.*1 /\ levels tensors_missing !! key = None)).
Proof.
  apply (_get_inference_input_raises (module gauss false vocabulary)
           tensors_missing).
  vm_compute. reflexivity.
Defined.

Lemma _get_generative_input_out_of_range_witness :
  _get_generative_input (module gauss false vocabulary)
                        tensors_out_of_range io = Raise RuntimeError.
Proof.
  apply (_get_generative_input_out_of_range (module gauss false vocabulary)
           tensors_out_of_range io "cell_type" 2 [2%Z]).
  - intros c Hc. apply (list_elem_of_singleton c "cell_type") in Hc.
    subst c. eexists. vm_compute. reflexivity.
  - apply list_elem_of_singleton. reflexivity.
  - reflexivity.
  - intros Hbelow. inversion Hbelow as [|i l Hi Hl]. lia.
Defined.

Lemma inference_level_out_of_range_witness :
  inference (module gauss false vocabulary) (const 1 2 (num 4))
            (const 1 1 (num 1)) {[ "cell_type" := [2%Z] ]} 0
    = Raise IndexError.
Proof.
  apply (inference_level_out_of_range (module gauss false vocabulary)
           (const 1 2 (num 4)) (const 1 1 (num 1))
           {[ "cell_type" := [2%Z] ]} 0 (None, const 1 2 (num 5)) 1 None 1
           "cell_type" 2 [2%Z]).
  - reflexivity.
  - reflexivity.
  - intros c Hc. apply (list_elem_of_singleton c "cell_type") in Hc.
    subst c. eexists. vm_compute. reflexivity.
  - apply list_elem_of_singleton. reflexivity.
  - reflexivity.
  - intros Hbelow. inversion Hbelow as [|i l Hi Hl]. simpl in Hi. lia.
Defined.

Lemma inference_requires_witness :
  exists out s',
    inference (module gauss false vocabulary) (const 1 2 (num 4))
              (const 1 1 (num 1)) {[ "cell_type" := [1%Z] ]} 0
      = Ok (out, s') /\
    covars_dict out = {[ "cell_type" := [1%Z] ]}.
Proof.
  assert (exists out s',
             inference (module gauss false vocabulary) (const 1 2 (num 4))
                       (const 1 1 (num 1)) {[ "cell_type" := [1%Z] ]} 0
             = Ok (out, s')) as (out & s' & Hrun)
    by (eexists _, _; vm_compute; reflexivity).
  exists out, s'. split; [exact Hrun|].
  exact (proj2 (inference_requires _ _ _ _ _ _ _ Hrun)).
Defined.

Lemma inference_extra_name_witness :
  inference (module gauss false vocabulary) (const 1 2 (num 4))
            (const 1 1 (num 1))
            (<["donor" := [0%Z]]> {[ "cell_type" := [1%Z] ]}) 0 =
  match inference (module gauss false vocabulary) (const 1 2 (num 4))
                  (const 1 1 (num 1)) {[ "cell_type" := [1%Z] ]} 0 with
  | Ok (out, s') =>
      Ok (with_covars_dict out
            (<["donor" := [0%Z]]> {[ "cell_type" := [1%Z] ]}), s')
  | Raise e => Raise e
  end.
Proof.
  apply (inference_extra_name (module gauss false vocabulary)).
  intros [=]%list_elem_of_singleton.
Defined.

Lemma inference_shapes_witness :
  exists out s',
    inference (module gauss false vocabulary) (const 1 2 (num 4))
              (const 1 1 (num 1)) {[ "cell_type" := [1%Z] ]} 0
      = Ok (out, s') /\
    (nrow (latent out) = 1 /\ ncol (latent out) = 2) /\
    (nrow (latent_basal out) = 1 /\ ncol (latent_basal out) = 2).
Proof.
  assert (exists out s',
             inference (module gauss false vocabulary) (const 1 2 (num 4))
                       (const 1 1 (num 1)) {[ "cell_type" := [1%Z] ]} 0
             = Ok (out, s')) as (out & s' & Hrun)
    by (eexists _, _; vm_compute; reflexivity).
  exists out, s'. split; [exact Hrun|].
  apply (inference_shapes _ _ _ _ _ _ _ (example_shapes gauss false) Hrun).
  - reflexivity.
  - intros covar n idx Hin Hidx.
    apply (list_elem_of_singleton (covar, n) ("cell_type", 2)) in Hin.
    injection Hin as -> ->. vm_compute in Hidx. injection Hidx as <-.
    reflexivity.
Defined.

Lemma inference_dose_rows_mismatch_witness :
  inference (module gauss false vocabulary) (const 2 2 (num 4))
            (const 3 1 (num 1)) {[ "cell_type" := [1%Z; 1%Z] ]} 0
    = Raise RuntimeError.
Proof.
  apply (inference_dose_rows_mismatch (module gauss false vocabulary)
           (const 2 2 (num 4)) (const 3 1 (num 1))
           {[ "cell_type" := [1%Z; 1%Z] ]} 0
           None (const 2 2 (num 5)) 1 None 1 (const 3 2 (num 2)) 2).
  - apply example_shapes.
  - discriminate.
  - intros covar n Hin.
    apply (list_elem_of_singleton (covar, n) ("cell_type", 2)) in Hin.
    injection Hin as -> ->.
    eexists. split; [reflexivity|]. split; [reflexivity|].
    repeat constructor; lia.
  - reflexivity.
  - reflexivity.
  - reflexivity.
  - discriminate.
  - discriminate.
  - discriminate.
Defined.

Lemma generative_keys_witness :
  exists go1 s1,
    generative (module nb false vocabulary) (const 1 2 (num 8))
               (const 1 2 (num 5)) 0 = Ok (go1, s1) /\
    is_Some (drugs_pred go1) /\ is_Some (covars_pred go1) /\
    (is_Some (means go1) <-> nb = gauss) /\
    (is_Some (variances go1) <-> nb = gauss) /\
    (is_Some (dist_px go1) <-> nb = nb).
Proof.
  assert (exists go1 s1,
             generative (module nb false vocabulary) (const 1 2 (num 8))
                        (const 1 2 (num 5)) 0 = Ok (go1, s1))
    as (go1 & s1 & Hrun) by (eexists _, _; vm_compute; reflexivity).
  exists go1, s1. split; [exact Hrun|].
  exact (generative_keys _ _ _ _ _ _ Hrun).
Defined.

Lemma generative_predictions_witness :
  exists go1 s1 cp,
    generative (module gauss false vocabulary) (const 1 2 (num 8))
               (const 1 2 (num 5)) 0 = Ok (go1, s1) /\
    covars_pred go1 = Some cp /\
    dom cp = list_to_set vocabulary.*1.
Proof.
  assert (exists go1 s1,
             generative (module gauss false vocabulary) (const 1 2 (num 8))
                        (const 1 2 (num 5)) 0 = Ok (go1, s1))
    as (go1 & s1 & Hrun) by (eexists _, _; vm_compute; reflexivity).
  destruct (generative_predictions _ _ _ _ _ _ Hrun)
    as (dp & cp & sa & _ & Hcp & _ & Hdom & _).
  exists go1, s1, cp. split; [exact Hrun|]. split; [exact Hcp|exact Hdom].
Defined.

Lemma forward_nb_TypeError_witness :
  forward (module nb false vocabulary) tensors 0 = Raise TypeError.
Proof.
  eapply (forward_nb_TypeError (module nb false vocabulary) tensors 0).
  - reflexivity.
  - vm_compute. reflexivity.
  - vm_compute. reflexivity.
  - vm_compute. reflexivity.
Defined.

Lemma adversarial_loss_after_generative_witness :
  exists adv_loss adv_penalty,
    adversarial_loss (module gauss false vocabulary) tensors io go
      = Ok (adv_loss, adv_penalty).
Proof.
  eapply (adversarial_loss_after_generative
            (module gauss false vocabulary) tensors io
            (latent io) (latent_basal io) 2 go).
  - vm_compute. reflexivity.
  - vm_compute. reflexivity.
  - intros c Hc. apply (list_elem_of_singleton c "cell_type") in Hc.
    subst c. eexists. vm_compute. reflexivity.
  - intros dp _. split; eexists; reflexivity.
  - intros cp covar pred idx _ _ _ _. split; eexists; reflexivity.
Defined.

Lemma loss_rows_mismatch_witness :
  loss (module gauss false vocabulary) tensors_two inference_outputs_one
       outputs_three = Raise RuntimeError.
Proof.
  apply (loss_rows_mismatch (Normal := Normal)
           (module gauss false vocabulary) tensors_two
           inference_outputs_one outputs_three
           (const 2 2 (num 4)) (const 3 2 (num 4))).
  - reflexivity.
  - reflexivity.
  - reflexivity.
  - eexists. reflexivity.
  - discriminate.
  - discriminate.
  - discriminate.
Defined.

Lemma loss_after_forward_witness :
  exists m v,
    means go = Some m /\ variances go = Some v /\
    loss (module gauss false vocabulary) tensors io go
      = Ok (tmean (gauss_nll_tensor (const 1 2 (num 4)) m v)) /\
    numel (gauss_nll_tensor (const 1 2 (num 4)) m v) = 1 * 2.
Proof.
  eapply (loss_after_forward (module gauss false vocabulary) tensors 0
            io go _ 1 (const 1 2 (num 4))).
  - reflexivity.
  - apply example_shapes.
  - apply example_batch.
  - reflexivity.
  - reflexivity.
  - vm_compute. reflexivity.
Defined.

Lemma loss_empty_batch_nan_witness :
  loss (module gauss false vocabulary) tensors_none inference_outputs_one
       outputs_none = Ok S754_nan.
Proof.
  apply (loss_empty_batch_nan 24 128 (fun _ => S754_zero false)
           (Normal := Normal)
           (module gauss false vocabulary) tensors_none
           inference_outputs_one outputs_none
           (const 0 2 (num 0)) (const 0 2 (num 0)) (const 0 2 (num 1))).
  - reflexivity.
  - reflexivity.
  - reflexivity.
  - reflexivity.
  - exact I.
  - exact I.
  - reflexivity.
Defined.

Lemma loss_zero_variance_not_finite_witness :
  exists l,
    loss (module gauss false vocabulary) tensors_two inference_outputs_one
         outputs_zero_variance = Ok l /\
    is_finite l = false.
Proof.
  apply (loss_zero_variance_not_finite 24 128 (fun _ => S754_zero false)
           (Normal := Normal)
           (module gauss false vocabulary) tensors_two
           inference_outputs_one outputs_zero_variance
           (const 2 2 (num 4)) (const 2 2 (num 4)) (zero_at_1 (num 1))).
  - reflexivity.
  - reflexivity.
  - reflexivity.
  - reflexivity.
  - exact I.
  - exact I.
  - exists 1, 0. split; [simpl; lia|]. split; [simpl; lia|]. reflexivity.
Defined.

Lemma loss_nan_input_witness :
  exists l,
    loss (module gauss false vocabulary) tensors_two inference_outputs_one
         outputs_nan_mean = Ok l /\
    is_nan l = true.
Proof.
  apply (loss_nan_input 24 128 (fun _ => S754_zero false)
           (Normal := Normal)
           (module gauss false vocabulary) tensors_two
           inference_outputs_one outputs_nan_mean
           (const 2 2 (num 4)) (nan_at_1 (num 4)) (const 2 2 (num 1))).
  - reflexivity.
  - reflexivity.
  - reflexivity.
  - reflexivity.
  - exact I.
  - exact I.
  - right. left. exists 1, 0.
    split; [simpl; lia|]. split; [simpl; lia|]. reflexivity.
Defined.

Lemma adversarial_penalty_nan_witness :
  exists adv_loss adv_penalty,
    adversarial_loss (module gauss false vocabulary) tensors_empty
                     io_empty go_empty = Ok (adv_loss, adv_penalty) /\
    is_nan adv_penalty = true.
Proof.
  assert (exists adv_loss adv_penalty,
             adversarial_loss (module gauss false vocabulary) tensors_empty
                              io_empty go_empty
             = Ok (adv_loss, adv_penalty)) as (l & p & Hrun)
    by (eexists _, _; vm_compute; reflexivity).
  exists l, p. split; [exact Hrun|].
  eapply (adversarial_penalty_nan 24 128 (fun _ => S754_zero false)
            _ _ _ _ _ _ _ _ Hrun).
  - left. vm_compute. reflexivity.
  - vm_compute. reflexivity.
  - left. reflexivity.
Defined.
End MoreRuns.
